(** * vuln-rate-limiting-tester: a shallow embedding of [main.py]

    The program is a single sequential workflow: validate the URL, build a
    [RateLimitTester], send [max_requests] paced GET requests, analyse each
    response and print a report.  Its effects (network, wall clock, logging,
    standard output, sleeping) are modelled by a small monad that reads a
    [World] (what every call of [session.get] does and what the clock
    shows), threads two counters and writes the list of effects it
    performed.  Times are binary64 floats, as Python's [float] is. *)

From Stdlib Require Import ZArith Ascii String List Lia DecimalString SpecFloat.
From stdpp Require Import base gmap strings list.

Local Open Scope string_scope.
Local Open Scope list_scope.
Local Open Scope Z_scope.

(** ** Strings *)

(** [str(n)] for a Python [int]. *)
Definition str_int (n : Z) : string := NilZero.string_of_int (Z.to_int n).

(** The newline character that starts several printed lines. *)
Definition nl : string := String (ascii_of_nat 10) EmptyString.

(** [c.lower()] on one ASCII character. *)
Definition lower_ascii (c : ascii) : ascii :=
  let n := nat_of_ascii c in
  if (andb (Nat.leb 65 n) (Nat.leb n 90)) then ascii_of_nat (n + 32) else c.

(** [s.lower()]. *)
Fixpoint lower (s : string) : string :=
  match s with
  | EmptyString => EmptyString
  | String c r => String (lower_ascii c) (lower r)
  end.

(** [s.startswith(p)]. *)
Fixpoint startswith (p s : string) : bool :=
  match p, s with
  | EmptyString, _ => true
  | String a p', String b s' => if Ascii.eqb a b then startswith p' s' else false
  | String _ _, EmptyString => false
  end.

(** [s.startswith((p1, p2, ...))]: a tuple of prefixes. *)
Definition startswith_any (ps : list string) (s : string) : bool :=
  existsb (fun p => startswith p s) ps.

(** ** The [requests] library, as far as the program uses it *)

(** [requests.structures.CaseInsensitiveDict]: the store is keyed by the
    lower-cased name and keeps the name as it was last set. *)
Record CaseInsensitiveDict := { _store : gmap string (string * string) }.

Definition cid_empty : CaseInsensitiveDict := {| _store := ∅ |}.

Definition cid_set (k v : string) (d : CaseInsensitiveDict) : CaseInsensitiveDict :=
  {| _store := <[lower k := (k, v)]> (_store d) |}.

(** [d.get(k)]: [None] when the key is absent. *)
Definition cid_get (k : string) (d : CaseInsensitiveDict) : option string :=
  snd <$> (_store d !! lower k).

(** [d.update({k: v, ...})]. *)
Definition cid_update (kvs : list (string * string)) (d : CaseInsensitiveDict)
  : CaseInsensitiveDict :=
  fold_left (fun acc kv => cid_set (fst kv) (snd kv) acc) kvs d.

Definition cid_of_list (kvs : list (string * string)) : CaseInsensitiveDict :=
  cid_update kvs cid_empty.

(** [requests.Response]: the fields the program and [raise_for_status] read. *)
Record Response := {
  status_code : Z;
  reason : string;
  resp_url : string;
  headers : CaseInsensitiveDict
}.

(** The classes below [requests.exceptions.RequestException] the program
    can meet.  [HTTPError] is the one [raise_for_status] raises. *)
Inductive RequestExceptionKind :=
| Timeout | ConnectionError | TooManyRedirects | HTTPError | OtherRequestException.

(** The exceptions of the program, all below [Exception]: those of
    [requests]; [ValueError], which stands for its subclasses too
    ([UnicodeError], urllib3's [LocationParseError]); the
    [ZeroDivisionError] and the [OverflowError] of a true division; and any
    other class, by its name. *)
Inductive Exn :=
| RequestException (k : RequestExceptionKind) (msg : string)
| ValueError (msg : string)
| ZeroDivisionError (msg : string)
| OverflowError (msg : string)
| OtherException (class msg : string).

(** [str(e)]. *)
Definition str_exn (e : Exn) : string :=
  match e with
  | RequestException _ m | ValueError m | ZeroDivisionError m | OverflowError m
  | OtherException _ m => m
  end.

(** [isinstance(e, requests.exceptions.RequestException)]. *)
Definition is_RequestException (e : Exn) : bool :=
  match e with RequestException _ _ => true | _ => false end.

(** [isinstance(e, ValueError)]. *)
Definition is_ValueError (e : Exn) : bool :=
  match e with ValueError _ => true | _ => false end.

(** What the environment makes of one call of [session.get]: the exchange
    completes with a response; or the call raises a [RequestException]
    (timeout, connection error, invalid URL, ...); or it raises another
    exception, which [requests] lets through as it is: the
    [LocationParseError] of a host with an empty label, the
    [UnicodeEncodeError] of a header that is not Latin-1, the
    [OverflowError] of a timeout the socket cannot take, ... *)
Inductive Outcome :=
| Completed (r : Response)
| Failed (k : RequestExceptionKind) (msg : string)
| Crashed (e : Exn).

(** ** Floats *)

(** A Python [float]: an IEEE 754 binary64 number. *)
Definition float : Type := spec_float.
Definition prec : Z := 53.
Definition emax : Z := 1024.

Definition float_zero : float := S754_zero false.

(** An [int] as an exact operand of a division: [n] is [n * 2^0]. *)
Definition exact (n : Z) : float :=
  match n with
  | Z0 => S754_zero false
  | Zpos p => S754_finite false p 0
  | Zneg p => S754_finite true p 0
  end.

(** The quotient of two [int]s rounded once, to nearest even; infinite
    when it is too large for a float.  The divisor is not 0. *)
Definition quotient (a b : Z) : float := SFdiv prec emax (exact a) (exact b).

Definition is_infinite (x : float) : bool :=
  match x with S754_infinity _ => true | _ => false end.

(** [x - y] on floats. *)
Definition fsub (x y : float) : float := SFsub prec emax x y.

(** [x > 0] on a float; false on NaN. *)
Definition gt_zero (x : float) : bool := SFltb float_zero x.

(** [float(n)], for the sample clocks. *)
Definition float_of_int (n : Z) : float := binary_normalize prec emax n 0 false.

(** ** Effects *)

Inductive Level := DEBUG | INFO | WARNING | ERROR.

(** The effects the program performs, in the order it performs them. *)
Inductive Event :=
| SetLevel (l : Level)                                  (* logging.getLogger().setLevel *)
| Log (l : Level) (msg : string)                        (* logging.info / warning / error *)
| HttpGet (url : string) (timeout : Z) (hdrs : CaseInsensitiveDict)  (* session.get *)
| Sleep (d : float)                                       (* time.sleep *)
| Print (line : string).                                (* print *)

(** The environment of a run: the outcome of the [n]-th [session.get] and
    the value of the [n]-th [time.time()], both counted from 0. *)
Record World := { http : nat -> Outcome; wall_clock : nat -> float }.

(** How many requests were sent and how many times the clock was read. *)
Record St := { gets : nat; ticks : nat }.

Inductive Res (A : Type) :=
| Ok (a : A)
| Raise (e : Exn).
Arguments Ok {A} a.
Arguments Raise {A} e.

(** A computation reads the world, updates the counters, and yields a value
    or an exception together with the effects it performed. *)
Definition M (A : Type) : Type := World -> St -> Res A * St * list Event.

Definition ret {A} (a : A) : M A := fun _ s => (Ok a, s, []).

Definition raise {A} (e : Exn) : M A := fun _ s => (Raise e, s, []).

Definition bind {A B} (m : M A) (f : A -> M B) : M B := fun w s =>
  match m w s with
  | (Ok a, s1, t1) => let '(r, s2, t2) := f a w s1 in (r, s2, t1 ++ t2)
  | (Raise e, s1, t1) => (Raise e, s1, t1)
  end.

(** [try: m except C1 as e: h1 e except C2 as e: h2 e ...]: each clause is
    the [isinstance] test of its class and its handler.  The first clause
    whose test succeeds handles the exception; an exception no clause
    matches, or one raised by a handler, passes through. *)
Fixpoint find_clause {A} (e : Exn) (clauses : list ((Exn -> bool) * (Exn -> M A)))
  : option (M A) :=
  match clauses with
  | [] => None
  | (handles, h) :: rest => if handles e then Some (h e) else find_clause e rest
  end.

Definition try_except {A} (m : M A) (clauses : list ((Exn -> bool) * (Exn -> M A))) : M A :=
  fun w s =>
    match m w s with
    | (Ok a, s1, t1) => (Ok a, s1, t1)
    | (Raise e, s1, t1) =>
        match find_clause e clauses with
        | Some h => let '(r, s2, t2) := h w s1 in (r, s2, t1 ++ t2)
        | None => (Raise e, s1, t1)
        end
    end.

(** [for x in xs: body], the loop's variables threaded through [body]. *)
Fixpoint for_each {A V} (xs : list A) (body : A -> V -> M V) (v : V) : M V :=
  match xs with
  | [] => ret v
  | x :: xs' => bind (body x v) (for_each xs' body)
  end.

(** [range(n)]: empty when [n <= 0]. *)
Definition range (n : Z) : list Z := map Z.of_nat (seq 0 (Z.to_nat n)).

(** [enumerate(xs)]. *)
Definition enumerate {A} (xs : list A) : list (Z * A) :=
  combine (range (Z.of_nat (length xs))) xs.

Definition emit (e : Event) : M unit := fun _ s => (Ok tt, s, [e]).

(** A step that has no effect but may raise. *)
Definition lift {A} (x : Res A) : M A := fun _ s => (x, s, []).

Notation "x <- m ;; k" := (bind m (fun x => k))
  (at level 100, m at next level, right associativity).
Notation "m ;;; k" := (bind m (fun _ => k))
  (at level 100, right associativity).

Definition result {A} (x : Res A * St * list Event) : Res A := fst (fst x).
Definition final {A} (x : Res A * St * list Event) : St := snd (fst x).
Definition events {A} (x : Res A * St * list Event) : list Event := snd x.

(** [logging.info], [logging.warning], [logging.error]. *)
Definition logging (l : Level) (msg : string) : M unit := emit (Log l msg).

(** [print(line)]. *)
Definition print (line : string) : M unit := emit (Print line).

(** [time.time()]. *)
Definition time_time : M float := fun w s =>
  (Ok (wall_clock w (ticks s)), {| gets := gets s; ticks := S (ticks s) |}, []).

(** [time.sleep(d)].  The loop calls it with [d > 0] only; the longest
    duration a platform accepts is not modelled. *)
Definition time_sleep (d : float) : M unit := emit (Sleep d).

(** [Response.raise_for_status]: it returns, or raises an [HTTPError]. *)
Definition raise_for_status (r : Response) : Res unit :=
  if (400 <=? status_code r) && (status_code r <? 500) then
    Raise (RequestException HTTPError
             (str_int (status_code r) +:+ " Client Error: " +:+ reason r
                +:+ " for url: " +:+ resp_url r))
  else if (500 <=? status_code r) && (status_code r <? 600) then
    Raise (RequestException HTTPError
             (str_int (status_code r) +:+ " Server Error: " +:+ reason r
                +:+ " for url: " +:+ resp_url r))
  else Ok tt.

(** [Response.ok], which is also [Response.__bool__]: [False] when
    [raise_for_status] raises, [True] otherwise. *)
Definition ok (r : Response) : bool :=
  match raise_for_status r with
  | Ok _ => true
  | Raise _ => false
  end.

(** [requests.Session]: the headers sent with every request. *)
Record Session := { session_headers : CaseInsensitiveDict }.

(** The headers of a fresh [requests.Session()]. *)
Definition default_headers : CaseInsensitiveDict :=
  cid_of_list [("User-Agent", "python-requests/2");
               ("Accept-Encoding", "gzip, deflate");
               ("Accept", "*/*");
               ("Connection", "keep-alive")].

(** The [ValueError] of urllib3's [Timeout] for a timeout that is not
    positive; the adapter builds the [Timeout] outside its [try]. *)
Definition timeout_error (timeout : Z) : Exn :=
  ValueError ("Attempted to set connect timeout to " +:+ str_int timeout
                +:+ ", but the timeout cannot be set to a value less than or equal to 0.").

(** What the caller of [session.get] sees of an outcome.  With a timeout
    that is not positive the call raises before it connects: no exchange
    completes, and the exceptions of the connection are never met; a
    [RequestException] stays, as the request may fail while it is prepared. *)
Definition delivered (timeout : Z) (o : Outcome) : Res Response :=
  match o with
  | Completed r => if timeout <=? 0 then Raise (timeout_error timeout) else Ok r
  | Failed k msg => Raise (RequestException k msg)
  | Crashed e => if timeout <=? 0 then Raise (timeout_error timeout) else Raise e
  end.

(** [session.get(url, timeout=timeout)]. *)
Definition session_get (se : Session) (url : string) (timeout : Z) : M Response :=
  fun w s =>
    (delivered timeout (http w (gets s)),
     {| gets := S (gets s); ticks := ticks s |},
     [HttpGet url timeout (session_headers se)]).

(** [a / b] on two [int]s: true division, the correctly rounded quotient. *)
Definition true_div (a b : Z) : M float :=
  if b =? 0 then raise (ZeroDivisionError "division by zero")
  else if is_infinite (quotient a b)
       then raise (OverflowError "integer division result too large for a float")
       else ret (quotient a b).

(** ** [RateLimitTester] *)

(** The dictionary [analyze_response] builds.  Its six keys are fixed, so
    it is a record; [items] lists them in insertion order. *)
Module Info.
Record t := {
  status_code : Z;
  x_ratelimit_limit : option string;
  x_ratelimit_remaining : option string;
  x_ratelimit_reset : option string;
  retry_after : option string;
  content_length : option string
}.

Inductive value := Int (n : Z) | Str (s : option string).

(** [str(v)] as an f-string formats it. *)
Definition str (v : value) : string :=
  match v with
  | Int n => str_int n
  | Str (Some s) => s
  | Str None => "None"
  end.

Definition items (d : t) : list (string * value) :=
  [("status_code", Int (status_code d));
   ("x_ratelimit_limit", Str (x_ratelimit_limit d));
   ("x_ratelimit_remaining", Str (x_ratelimit_remaining d));
   ("x_ratelimit_reset", Str (x_ratelimit_reset d));
   ("retry_after", Str (retry_after d));
   ("content_length", Str (content_length d))].
End Info.

Record RateLimitTester := {
  url : string;
  requests_per_second : Z;
  max_requests : Z;
  timeout : Z;
  user_agent : string;
  session : Session
}.

(** Truth value of a [str] or [None]. *)
Definition truthy_str (s : option string) : bool :=
  match s with
  | Some (String _ _) => true
  | _ => false
  end.

(** Truth value of a [Response] or [None]: [Response.__bool__] is [ok]. *)
Definition truthy_response (r : option Response) : bool :=
  match r with
  | Some r => ok r
  | None => false
  end.

Definition default_user_agent : string := "vuln-Rate-Limiting-Tester/1.0".

Definition __init__ (url : string) (requests_per_second max_requests timeout : Z)
    (user_agent : option string) : RateLimitTester :=
  let ua := if truthy_str user_agent then default "" user_agent
            else default_user_agent in
  {| url := url;
     requests_per_second := requests_per_second;
     max_requests := max_requests;
     timeout := timeout;
     user_agent := ua;
     session := {| session_headers := cid_update [("User-Agent", ua)] default_headers |} |}.

Definition send_request (self : RateLimitTester) : M (option Response) :=
  try_except
    (response <- session_get (session self) (url self) (timeout self) ;;
     lift (raise_for_status response) ;;;
     ret (Some response))
    [(is_RequestException,
      fun e => logging ERROR ("Request failed: " +:+ str_exn e) ;;; ret None)].

Definition analyze_response (self : RateLimitTester) (response : option Response)
  : option Info.t :=
  if negb (truthy_response response) then None
  else match response with
       | None => None
       | Some r =>
           let headers := headers r in
           Some {| Info.status_code := status_code r;
                   Info.x_ratelimit_limit := cid_get "X-RateLimit-Limit" headers;
                   Info.x_ratelimit_remaining := cid_get "X-RateLimit-Remaining" headers;
                   Info.x_ratelimit_reset := cid_get "X-RateLimit-Reset" headers;
                   Info.retry_after := cid_get "Retry-After" headers;
                   Info.content_length := cid_get "Content-Length" headers |}
       end.

(** The body of the loop of [test_rate_limiting] at index [i]; [responses]
    is the list built so far. *)
Definition attempt (self : RateLimitTester) (start_time : float) (i : Z)
    (responses : list (option Info.t)) : M (list (option Info.t)) :=
  response <- send_request self ;;
  responses <- (if truthy_response response then
                  let responses := responses ++ [analyze_response self response] in
                  (if i mod 10 =? 0
                   then logging INFO ("Sent " +:+ str_int (i + 1) +:+ " requests")
                   else ret tt) ;;;
                  ret responses
                else
                  logging WARNING "Request failed, skipping analysis." ;;;
                  ret (responses ++ [None])) ;;
  (* Enforce the requests per second limit *)
  now <- time_time ;;
  let elapsed_time := fsub now start_time in
  target <- true_div (i + 1) (requests_per_second self) ;;
  let sleep_time := fsub target elapsed_time in
  (if gt_zero sleep_time then time_sleep sleep_time else ret tt) ;;;
  ret responses.

Definition test_rate_limiting (self : RateLimitTester) : M (list (option Info.t)) :=
  logging INFO ("Starting rate limiting test against " +:+ url self) ;;;
  start_time <- time_time ;;
  responses <- for_each (range (max_requests self)) (attempt self start_time) [] ;;
  logging INFO "Rate limiting test completed." ;;;
  ret responses.

(** The body of the loop of [report_results]; the loop's variables are
    [(blocked_count, error_count)]. *)
Definition report_one (ir : Z * option Info.t) (counts : Z * Z) : M (Z * Z) :=
  let '(i, result) := ir in
  let '(blocked_count, error_count) := counts in
  print (nl +:+ "Request #" +:+ str_int (i + 1) +:+ ":") ;;;
  match result with
  | None =>
      print "  Request Failed." ;;;
      ret (blocked_count, error_count + 1)
  | Some result =>
      for_each (Info.items result)
        (fun kv _ => print ("  " +:+ fst kv +:+ ": " +:+ Info.str (snd kv))) tt ;;;
      if existsb (Z.eqb (Info.status_code result)) [429; 503]
      then ret (blocked_count + 1, error_count)
      else ret (blocked_count, error_count)
  end.

Definition report_results (self : RateLimitTester) (responses : list (option Info.t))
  : M unit :=
  match responses with
  | [] => logging WARNING "No responses to report."
  | _ :: _ =>
      print (nl +:+ "--- Rate Limiting Test Results ---") ;;;
      counts <- for_each (enumerate responses) report_one (0, 0) ;;
      let '(blocked_count, error_count) := counts in
      print (nl +:+ "--- Summary ---") ;;;
      print ("Total Requests: " +:+ str_int (Z.of_nat (length responses))) ;;;
      print ("Blocked Requests (429/503): " +:+ str_int blocked_count) ;;;
      print ("Failed Requests: " +:+ str_int error_count) ;;;
      if 0 <? blocked_count
      then print (nl +:+ "Possible Rate Limiting Detected.")
      else print (nl +:+ "No Rate Limiting Appears to be in Effect.")
  end.

(** ** The command line *)

(** The namespace [parse_args] returns. *)
Module Args.
Record t := {
  url : string;
  requests_per_second : Z;
  max_requests : Z;
  timeout : Z;
  user_agent : option string;
  verbose : bool
}.
End Args.

(** [sys.exit(n)] ends the process with status [n]; every call is the last
    statement of its path, so the status is the value of [main]. *)
Definition sys_exit (n : Z) : M Z := ret n.

(** The [try] block of [main]; its value is the exit status of a [main]
    that returns. *)
Definition main_try (args : Args.t) : M Z :=
  (if negb (startswith_any ["http://"; "https://"] (Args.url args))
   then raise (ValueError "URL must start with http:// or https://")
   else ret tt) ;;;
  let tester := __init__ (Args.url args) (Args.requests_per_second args)
                  (Args.max_requests args) (Args.timeout args)
                  (Args.user_agent args) in
  responses <- test_rate_limiting tester ;;
  report_results tester responses ;;;
  ret 0.

(** [main] after [parse_args]; its value is the exit status of the process
    (0 when [main] returns). *)
Definition main (args : Args.t) : M Z :=
  (if Args.verbose args then emit (SetLevel DEBUG) else ret tt) ;;;
  try_except (main_try args)
    [(is_ValueError,
      fun e => logging ERROR ("Invalid input: " +:+ str_exn e) ;;; sys_exit 1);
     (fun _ => true,
      fun e => logging ERROR ("An unexpected error occurred: " +:+ str_exn e) ;;;
               sys_exit 1)].

(** The state of a fresh process. *)
Definition boot : St := {| gets := 0; ticks := 0 |}.

(** * Describing runs

    What the properties below are stated with: readings of a trace, the
    effects of the parts of a run, and the sample data the examples use. *)

(** ** The parts of a run *)

(** The counters after one request, and after one reading of the clock. *)
Definition sent (s : St) : St := {| gets := S (gets s); ticks := ticks s |}.
Definition ticked (s : St) : St := {| gets := gets s; ticks := S (ticks s) |}.

(** The response an outcome leaves once [raise_for_status] has run. *)
Definition checked (timeout : Z) (o : Outcome) : Res Response :=
  match delivered timeout o with
  | Ok r => match raise_for_status r with Ok _ => Ok r | Raise e => Raise e end
  | Raise e => Raise e
  end.

(** What [send_request] makes of an outcome: the response, [None] for a
    [RequestException], and any other exception let through. *)
Definition returned (self : RateLimitTester) (o : Outcome) : Res (option Response) :=
  match checked (timeout self) o with
  | Ok r => Ok (Some r)
  | Raise e => if is_RequestException e then Ok None else Raise e
  end.

(** The exception [send_request] lets through, if any. *)
Definition escapes (self : RateLimitTester) (o : Outcome) : option Exn :=
  match returned self o with
  | Ok _ => None
  | Raise e => Some e
  end.

(** Whether the [n]-th exchange gives [send_request] a response. *)
Definition succeeds (self : RateLimitTester) (w : World) (n : nat) : bool :=
  match returned self (http w n) with
  | Ok (Some _) => true
  | _ => false
  end.

(** Whether [send_request] returns [None] at the [n]-th exchange. *)
Definition fails (self : RateLimitTester) (w : World) (n : nat) : bool :=
  match returned self (http w n) with
  | Ok None => true
  | _ => false
  end.

(** No call of [session.get] among the [n] from the [g]-th raises an
    exception that [send_request] lets through. *)
Definition no_crash (self : RateLimitTester) (w : World) (g n : nat) : Prop :=
  forall k, (k < n)%nat -> escapes self (http w (g + k)) = None.

(** The pacing divisions of attempts [a] to [a + n - 1] do not overflow. *)
Definition no_overflow (self : RateLimitTester) (a n : nat) : Prop :=
  forall k, (k < n)%nat ->
    is_infinite (quotient (Z.of_nat (a + k) + 1) (requests_per_second self)) = false.

(** The effects of the request of an attempt, then of its branch. *)
Definition request_events (self : RateLimitTester) (o : Outcome) : list Event :=
  HttpGet (url self) (timeout self) (session_headers (session self))
    :: match checked (timeout self) o with
       | Ok _ => []
       | Raise e => if is_RequestException e
                    then [Log ERROR ("Request failed: " +:+ str_exn e)] else []
       end.

Definition branch_events (self : RateLimitTester) (i : Z) (o : Outcome) : list Event :=
  match returned self o with
  | Ok (Some _) => if i mod 10 =? 0
                   then [Log INFO ("Sent " +:+ str_int (i + 1) +:+ " requests")] else []
  | Ok None => [Log WARNING "Request failed, skipping analysis."]
  | Raise _ => []
  end.

(** The time the loop has left at the end of attempt [i]: the target
    [(i + 1) / requests_per_second] less the time elapsed. *)
Definition slack (self : RateLimitTester) (start_time now : float) (i : Z) : float :=
  fsub (quotient (i + 1) (requests_per_second self)) (fsub now start_time).

Definition pause_events (self : RateLimitTester) (start_time now : float) (i : Z)
  : list Event :=
  if gt_zero (slack self start_time now i)
  then [Sleep (slack self start_time now i)] else [].

Definition attempt_events (self : RateLimitTester) (start_time : float) (i : Z)
    (o : Outcome) (now : float) : list Event :=
  request_events self o ++ branch_events self i o ++ pause_events self start_time now i.

(** The entry an attempt appends. *)
Definition entry (self : RateLimitTester) (o : Outcome) : option Info.t :=
  match checked (timeout self) o with
  | Ok r => analyze_response self (Some r)
  | Raise _ => None
  end.

(** ** Readings of a trace *)

Definition is_get (e : Event) : bool :=
  match e with HttpGet _ _ _ => true | _ => false end.

(** How many requests a trace sends. *)
Definition requests_sent (t : list Event) : nat := length (List.filter is_get t).

(** The pauses of a trace, in order. *)
Definition sleeps (t : list Event) : list float :=
  flat_map (fun e => match e with Sleep d => [d] | _ => [] end) t.

(** The exchange a request makes completes with a 2xx status. *)
Definition completes_2xx (w : World) (n : nat) : Prop :=
  exists r, http w n = Completed r /\ 200 <= status_code r < 300.

(** ** The report *)

(** A record is blocked when its status code is 429 or 503. *)
Definition is_blocked (r : option Info.t) : bool :=
  match r with
  | Some d => (Info.status_code d =? 429) || (Info.status_code d =? 503)
  | None => false
  end.

Definition is_absent (r : option Info.t) : bool :=
  match r with Some _ => false | None => true end.

Definition count_blocked (rs : list (option Info.t)) : nat :=
  length (List.filter is_blocked rs).

Definition count_absent (rs : list (option Info.t)) : nat :=
  length (List.filter is_absent rs).

Definition detected_line : string := nl +:+ "Possible Rate Limiting Detected.".
Definition not_detected_line : string := nl +:+ "No Rate Limiting Appears to be in Effect.".

(** The lines printed for request [i] (0-based). *)
Definition listing (ir : Z * option Info.t) : list Event :=
  Print (nl +:+ "Request #" +:+ str_int (fst ir + 1) +:+ ":")
    :: match snd ir with
       | None => [Print "  Request Failed."]
       | Some d =>
           map (fun kv => Print ("  " +:+ fst kv +:+ ": " +:+ Info.str (snd kv)))
             (Info.items d)
       end.

(** ** What a computation may emit and raise *)

(** In the world [w], every effect of [m] satisfies [P] and every
    exception it raises satisfies [E]. *)
Definition safe {A} (w : World) (P : Event -> Prop) (E : Exn -> Prop) (m : M A)
  : Prop :=
  forall s, Forall P (events (m w s)) /\ forall e, result (m w s) = Raise e -> E e.

(** The effects a tester can perform while it sends its requests. *)
Inductive tester_event (self : RateLimitTester) : Event -> Prop :=
| te_get : tester_event self
             (HttpGet (url self) (timeout self) (session_headers (session self)))
| te_info msg : tester_event self (Log INFO msg)
| te_warning msg : tester_event self (Log WARNING msg)
| te_failed msg : tester_event self (Log ERROR ("Request failed: " +:+ msg))
| te_sleep d : tester_event self (Sleep d).

(** The exceptions the pacing loop lets through: the two of its division
    and what [send_request] lets through. *)
Inductive loop_exception (self : RateLimitTester) (w : World) : Exn -> Prop :=
| le_zero : requests_per_second self = 0 ->
            loop_exception self w (ZeroDivisionError "division by zero")
| le_overflow : loop_exception self w
                  (OverflowError "integer division result too large for a float")
| le_escaped n e : escapes self (http w n) = Some e -> loop_exception self w e.

(** The effects of the report. *)
Inductive reporter_event : Event -> Prop :=
| re_print line : reporter_event (Print line)
| re_warning msg : reporter_event (Log WARNING msg).

Definition valid_url (u : string) : bool := startswith_any ["http://"; "https://"] u.

Definition tester_of (args : Args.t) : RateLimitTester :=
  __init__ (Args.url args) (Args.requests_per_second args) (Args.max_requests args)
    (Args.timeout args) (Args.user_agent args).

Definition verbose_events (args : Args.t) : list Event :=
  if Args.verbose args then [SetLevel DEBUG] else [].

Definition invalid_url_error : Event :=
  Log ERROR "Invalid input: URL must start with http:// or https://".

(** Every request of a trace carries [ua] as its User-Agent. *)
Definition sends_user_agent (ua : string) (t : list Event) : Prop :=
  Forall (fun e => forall u d h, e = HttpGet u d h -> cid_get "User-Agent" h = Some ua) t.

(** A tester uses [ua]: it is its [user_agent] and the User-Agent of every
    request of every run. *)
Definition uses_user_agent (self : RateLimitTester) (ua : string) : Prop :=
  user_agent self = ua /\
  forall w s, sends_user_agent ua (events (test_rate_limiting self w s)).

(** ** Further readings *)

(** How many of the first [n] exchanges from the [g]-th make
    [send_request] return [None]. *)
Definition failures (self : RateLimitTester) (w : World) (g n : nat) : nat :=
  length (List.filter (fun k => fails self w (g + k)) (seq 0 n)).

Definition is_log_at (l : Level) (e : Event) : bool :=
  match e, l with
  | Log DEBUG _, DEBUG | Log INFO _, INFO | Log WARNING _, WARNING
  | Log ERROR _, ERROR => true
  | _, _ => false
  end.

(** How many lines a trace logs at level [l]. *)
Definition logged_at (l : Level) (t : list Event) : nat :=
  length (List.filter (is_log_at l) t).

(** A float that is not below zero: [x < 0] is false. *)
Definition not_negative (x : float) : bool := negb (SFltb x float_zero).

(** [x <= y] on floats; false on NaN. *)
Definition fle (x y : float) : bool := SFleb x y.

(** A binary64 number: its mantissa has at most 53 bits, exactly 53
    unless its exponent is the least one, and its exponent is in range. *)
Definition is_float (x : float) : bool := valid_binary prec emax x.

(** A float that is not a NaN has the sign bit [sx]. *)
Definition signed (sx : bool) (x : float) : Prop :=
  match x with
  | S754_zero s | S754_infinity s | S754_finite s _ _ => s = sx
  | S754_nan => True
  end.

(** ** Where a run stops *)

(** The exception attempt [i] ends in at the outcome [o], if any: the one
    [send_request] lets through, or one of the two of the pacing division. *)
Definition attempt_raises (self : RateLimitTester) (i : Z) (o : Outcome) : option Exn :=
  match escapes self o with
  | Some e => Some e
  | None =>
      if requests_per_second self =? 0
      then Some (ZeroDivisionError "division by zero")
      else if is_infinite (quotient (i + 1) (requests_per_second self))
           then Some (OverflowError "integer division result too large for a float")
           else None
  end.

(** Among the attempts [a], ..., [a + n - 1], made with the exchanges from
    the [g]-th: the first that raises, as the number of attempts before it
    and its exception. *)
Fixpoint first_raise (self : RateLimitTester) (w : World) (g a n : nat)
  : option (nat * Exn) :=
  match n with
  | O => None
  | S n' =>
      match attempt_raises self (Z.of_nat a) (http w g) with
      | Some e => Some (O, e)
      | None =>
          match first_raise self w (S g) (S a) n' with
          | Some (k, e) => Some (S k, e)
          | None => None
          end
      end
  end.

(** Where the run of a tester stops when its first exchange is the
    [g]-th: [None] when all its attempts complete. *)
Definition stops (self : RateLimitTester) (w : World) (g : nat) : option (nat * Exn) :=
  first_raise self w g 0 (Z.to_nat (max_requests self)).

(** The requests a run makes: all of them, or those up to the attempt
    that raises. *)
Definition attempts_made (self : RateLimitTester) (w : World) (g : nat) : nat :=
  match stops self w g with
  | Some (k, _) => S k
  | None => Z.to_nat (max_requests self)
  end.

(** ** Sample data *)

Definition response_with (code : Z) (hs : list (string * string)) : Response :=
  {| status_code := code; reason := "-"; resp_url := "http://t/";
     headers := cid_of_list hs |}.

Definition sample_tester : RateLimitTester := __init__ "http://t/" 5 5 5 None.

(** A tester for a host with an empty label. *)
Definition bad_host_tester : RateLimitTester := __init__ "http://a..b/" 5 5 5 None.

(** Every exchange completes with 304 Not Modified. *)
Definition world_304 : World :=
  {| http := fun _ => Completed (response_with 304 []);
     wall_clock := fun n => float_of_int (Z.of_nat n) |}.

(** A 429 with [Retry-After: 30]. *)
Definition throttled : Response := response_with 429 [("Retry-After", "30")].

(** A 200 with [Retry-After: 30]. *)
Definition served_200 : Response := response_with 200 [("Retry-After", "30")].

(** Every exchange times out; the clock advances one second per reading. *)
Definition world_down : World :=
  {| http := fun _ => Failed Timeout "timed out";
     wall_clock := fun n => float_of_int (Z.of_nat n) |}.

(** Every exchange completes with 200; the clock advances 2^-7 seconds
    per reading. *)
Definition world_up : World :=
  {| http := fun _ => Completed served_200;
     wall_clock := fun n => SFldexp prec emax (float_of_int (Z.of_nat n)) (-7) |}.

(** Every call raises the [LocationParseError] (a [ValueError]) of a host
    with an empty label; the clock stands still. *)
Definition world_bad_host : World :=
  {| http := fun _ => Crashed (ValueError "Failed to parse: 'a..b', label empty or too long");
     wall_clock := fun _ => float_zero |}.

Definition args_with (rps n : Z) : Args.t :=
  {| Args.url := "http://t/"; Args.requests_per_second := rps;
     Args.max_requests := n; Args.timeout := 5; Args.user_agent := None;
     Args.verbose := false |}.

(** The command line [http://t/ -t 0 -m 1]. *)
Definition args_timeout_0 : Args.t :=
  {| Args.url := "http://t/"; Args.requests_per_second := 10;
     Args.max_requests := 1; Args.timeout := 0; Args.user_agent := None;
     Args.verbose := false |}.

Definition sample_results : list (option Info.t) :=
  [None;
   Some {| Info.status_code := 429; Info.x_ratelimit_limit := None;
           Info.x_ratelimit_remaining := None; Info.x_ratelimit_reset := None;
           Info.retry_after := Some "30"; Info.content_length := None |}].

(** * Properties *)

(** ** Running computations *)

Lemma bind_ok {A B} (m : M A) (f : A -> M B) w s a s1 t1 :
  m w s = (Ok a, s1, t1) ->
  bind m f w s = (result (f a w s1), final (f a w s1), t1 ++ events (f a w s1)).
Proof.
  intros Hm. unfold bind. rewrite Hm.
  destruct (f a w s1) as [[r s2] t2]. reflexivity.
Qed.

Lemma bind_raise {A B} (m : M A) (f : A -> M B) w s e s1 t1 :
  m w s = (Raise e, s1, t1) -> bind m f w s = (Raise e, s1, t1).
Proof. intros Hm. unfold bind. rewrite Hm. reflexivity. Qed.

Lemma run_eta {A} (x : Res A * St * list Event) : x = (result x, final x, events x).
Proof. destruct x as [[r s] t]. reflexivity. Qed.

(** ** [raise_for_status] and [ok] *)

Lemma ok_true_iff r : ok r = true <-> ~ (400 <= status_code r < 600).
Proof.
  unfold ok, raise_for_status.
  destruct (400 <=? status_code r) eqn:H4; destruct (status_code r <? 500) eqn:H5;
    destruct (500 <=? status_code r) eqn:H6; destruct (status_code r <? 600) eqn:H7;
    simpl; split; intros H; try reflexivity; try discriminate; lia.
Qed.

Lemma ok_false_iff r : ok r = false <-> 400 <= status_code r < 600.
Proof.
  destruct (ok r) eqn:E.
  - apply ok_true_iff in E. split; [discriminate | intros; contradiction].
  - split; [intros _ | reflexivity].
    destruct (Z_le_dec 400 (status_code r)); destruct (Z_lt_dec (status_code r) 600);
      try lia; assert (ok r = true) by (apply ok_true_iff; lia); congruence.
Qed.

Lemma raise_for_status_ok r : ok r = true -> raise_for_status r = Ok tt.
Proof. unfold ok. destruct (raise_for_status r) as [[]|]; [reflexivity|discriminate]. Qed.

Lemma raise_for_status_raise r :
  ok r = false -> exists msg, raise_for_status r = Raise (RequestException HTTPError msg).
Proof.
  unfold ok, raise_for_status.
  destruct ((400 <=? status_code r) && (status_code r <? 500)); [eauto|].
  destruct ((500 <=? status_code r) && (status_code r <? 600)); [eauto|discriminate].
Qed.

(** ** [send_request] *)

(** [send_request] sends one request; what it returns or raises and what
    it logs is read off the outcome of the exchange. *)
Lemma send_request_run self w s :
  send_request self w s =
    (returned self (http w (gets s)), sent s, request_events self (http w (gets s))).
Proof.
  unfold send_request, try_except, bind, session_get, lift, returned, request_events,
    checked.
  destruct (delivered (timeout self) (http w (gets s))) as [r|e]; simpl.
  - destruct (raise_for_status r) as [[]|e]; simpl; [reflexivity|].
    destruct (is_RequestException e); reflexivity.
  - destruct (is_RequestException e); reflexivity.
Qed.

Lemma checked_ok timeout o r :
  checked timeout o = Ok r -> delivered timeout o = Ok r /\ ok r = true.
Proof.
  unfold checked. destruct (delivered timeout o) as [r'|e]; [|discriminate].
  destruct (ok r') eqn:E.
  - rewrite (raise_for_status_ok _ E). intros [= <-]. auto.
  - destruct (raise_for_status_raise _ E) as [msg ->]. discriminate.
Qed.

Lemma returned_some self o r :
  returned self o = Ok (Some r) <-> checked (timeout self) o = Ok r.
Proof.
  unfold returned. destruct (checked (timeout self) o) as [r'|e].
  - split; intros [= <-]; reflexivity.
  - destruct (is_RequestException e); split; discriminate.
Qed.

Lemma returned_truthy self o v :
  returned self o = Ok v -> truthy_response v = match v with Some _ => true | None => false end.
Proof.
  destruct v as [r|]; [|reflexivity]. intros H. apply returned_some in H.
  apply checked_ok in H. simpl. apply H.
Qed.

Lemma escapes_none self o :
  escapes self o = None <-> exists v, returned self o = Ok v.
Proof.
  unfold escapes. destruct (returned self o) as [v|e]; split; eauto; try discriminate.
  intros [v H]. discriminate H.
Qed.

Lemma escapes_some self o e : escapes self o = Some e <-> returned self o = Raise e.
Proof.
  unfold escapes. destruct (returned self o) as [v|e']; split; try discriminate;
    intros [= <-]; reflexivity.
Qed.

Lemma escapes_not_request self o e : escapes self o = Some e -> is_RequestException e = false.
Proof.
  unfold escapes, returned. destruct (checked (timeout self) o) as [r|e']; [discriminate|].
  destruct (is_RequestException e') eqn:E; [discriminate|]. intros [= <-]. exact E.
Qed.

(** ** One attempt of the pacing loop *)

(** The entry is the analysis of what [send_request] returned. *)
Lemma entry_returned self o v :
  returned self o = Ok v -> entry self o = analyze_response self v.
Proof.
  unfold returned, entry. destruct (checked (timeout self) o) as [r|e].
  - intros [= <-]. reflexivity.
  - destruct (is_RequestException e); [|discriminate]. intros [= <-]. reflexivity.
Qed.

(** An attempt, whatever the exchange and the rate: it stops after the
    request when [send_request] lets an exception through, after the
    branch when the division raises, and otherwise appends its entry. *)
Lemma attempt_run self start_time i acc w s :
  attempt self start_time i acc w s =
    match returned self (http w (gets s)) with
    | Raise e => (Raise e, sent s, request_events self (http w (gets s)))
    | Ok _ =>
        if requests_per_second self =? 0 then
          (Raise (ZeroDivisionError "division by zero"), ticked (sent s),
           request_events self (http w (gets s))
             ++ branch_events self i (http w (gets s)))
        else if is_infinite (quotient (i + 1) (requests_per_second self)) then
          (Raise (OverflowError "integer division result too large for a float"),
           ticked (sent s),
           request_events self (http w (gets s))
             ++ branch_events self i (http w (gets s)))
        else
          (Ok (acc ++ [entry self (http w (gets s))]), ticked (sent s),
           attempt_events self start_time i (http w (gets s)) (wall_clock w (ticks s)))
    end.
Proof.
  unfold attempt.
  destruct (returned self (http w (gets s))) as [v|e] eqn:ER.
  - assert (Hrun : send_request self w s =
                   (Ok v, sent s, request_events self (http w (gets s)))).
    { rewrite send_request_run, ER. reflexivity. }
    rewrite (bind_ok _ _ _ _ _ _ _ Hrun).
    rewrite (returned_truthy _ _ _ ER), (entry_returned _ _ _ ER).
    unfold attempt_events, branch_events, pause_events, slack. rewrite ER.
    unfold true_div, time_sleep, logging.
    unfold bind, emit, ret, time_time, raise.
    destruct v as [r|]; destruct (requests_per_second self =? 0);
      destruct (is_infinite (quotient (i + 1) (requests_per_second self)));
      destruct (i mod 10 =? 0);
      cbn [fst snd result final events app sent ticked gets ticks];
      try reflexivity;
      match goal with |- context [gt_zero ?d] => destruct (gt_zero d) end;
      reflexivity.
  - assert (Hrun : send_request self w s =
                   (Raise e, sent s, request_events self (http w (gets s)))).
    { rewrite send_request_run, ER. reflexivity. }
    rewrite (bind_raise _ _ _ _ _ _ _ Hrun). reflexivity.
Qed.

(** ** The pacing loop *)

Lemma flat_map_shift {A} (f : nat -> list A) a n :
  flat_map f (seq (S a) n) = flat_map (fun k => f (S k)) (seq a n).
Proof.
  revert a. induction n as [|n IH]; intros a; simpl; [reflexivity|].
  rewrite IH. reflexivity.
Qed.

Lemma map_shift {A} (f : nat -> A) a n :
  map f (seq (S a) n) = map (fun k => f (S k)) (seq a n).
Proof.
  revert a. induction n as [|n IH]; intros a; simpl; [reflexivity|].
  rewrite IH. reflexivity.
Qed.

(** An attempt that completes: the request lets no exception through and
    the division returns. *)
Lemma attempt_completes self start_time i acc w s :
  requests_per_second self <> 0 ->
  escapes self (http w (gets s)) = None ->
  is_infinite (quotient (i + 1) (requests_per_second self)) = false ->
  attempt self start_time i acc w s =
    (Ok (acc ++ [entry self (http w (gets s))]), ticked (sent s),
     attempt_events self start_time i (http w (gets s)) (wall_clock w (ticks s))).
Proof.
  intros HR HE HO. rewrite attempt_run.
  apply escapes_none in HE. destruct HE as [v ->].
  apply Z.eqb_neq in HR. rewrite HR, HO. reflexivity.
Qed.

(** The pacing division overflows when the index is large enough: at a
    rate of 5, attempt [5 * 2^1024] raises instead of appending its entry,
    and so does attempt [2^1024 - 1] at a rate of 1. *)
Lemma attempt_overflows :
  result (attempt sample_tester float_zero (5 * 2 ^ 1024) [] world_up boot) =
    Raise (OverflowError "integer division result too large for a float") /\
  is_infinite (quotient (2 ^ 1024 - 1 + 1) 1) = true /\
  is_infinite (quotient (2 ^ 1024 - 2 ^ 970 - 1) 1) = false.
Proof. repeat split; vm_compute; reflexivity. Qed.

(** [n] attempts from index [a] that all complete: each appends its
    entry, and the effects are those of the attempts in order. *)
Lemma loop_run self start_time w :
  requests_per_second self <> 0 ->
  forall n a acc s,
    no_crash self w (gets s) n ->
    no_overflow self a n ->
    for_each (map Z.of_nat (seq a n)) (attempt self start_time) acc w s =
      (Ok (acc ++ map (fun k => entry self (http w (gets s + k)%nat)) (seq 0 n)),
       {| gets := (gets s + n)%nat; ticks := (ticks s + n)%nat |},
       flat_map (fun k => attempt_events self start_time (Z.of_nat (a + k))
                            (http w (gets s + k)%nat) (wall_clock w (ticks s + k)%nat))
                (seq 0 n)).
Proof.
  intros HR. induction n as [|n IH]; intros a acc s HC HO.
  - simpl. unfold ret. rewrite app_nil_r, !Nat.add_0_r. destruct s; reflexivity.
  - cbn [seq map for_each flat_map].
    assert (H0 : attempt self start_time (Z.of_nat a) acc w s =
                 (Ok (acc ++ [entry self (http w (gets s))]), ticked (sent s),
                  attempt_events self start_time (Z.of_nat a) (http w (gets s))
                    (wall_clock w (ticks s)))).
    { apply attempt_completes; [exact HR| |].
      - specialize (HC 0%nat ltac:(lia)). rewrite Nat.add_0_r in HC. exact HC.
      - specialize (HO 0%nat ltac:(lia)). rewrite Nat.add_0_r in HO. exact HO. }
    rewrite (bind_ok _ _ _ _ _ _ _ H0).
    rewrite IH.
    2:{ intros k Hk. specialize (HC (S k) ltac:(lia)).
        cbn [ticked sent gets]. rewrite Nat.add_succ_r in HC. exact HC. }
    2:{ intros k Hk. specialize (HO (S k) ltac:(lia)).
        rewrite Nat.add_succ_r in HO. exact HO. }
    unfold result, final, events. cbn [fst snd sent ticked gets ticks].
    rewrite !Nat.add_0_r, flat_map_shift, map_shift, <- app_assoc.
    f_equal; [f_equal|].
    + f_equal. f_equal. simpl. f_equal.
      apply map_ext. intros k. rewrite Nat.add_succ_r. reflexivity.
    + f_equal; lia.
    + f_equal. apply flat_map_ext. intros k.
      rewrite !Nat.add_succ_r. reflexivity.
Qed.

(** A run whose attempts all complete, from any state: the list has one
    entry per attempt, and the clock is read once before the loop and once
    in each attempt. *)
Lemma test_rate_limiting_run self w s :
  requests_per_second self <> 0 ->
  no_crash self w (gets s) (Z.to_nat (max_requests self)) ->
  no_overflow self 0 (Z.to_nat (max_requests self)) ->
  test_rate_limiting self w s =
    (Ok (map (fun k => entry self (http w (gets s + k)%nat))
           (seq 0 (Z.to_nat (max_requests self)))),
     {| gets := (gets s + Z.to_nat (max_requests self))%nat;
        ticks := (S (ticks s) + Z.to_nat (max_requests self))%nat |},
     Log INFO ("Starting rate limiting test against " +:+ url self)
       :: flat_map (fun k => attempt_events self (wall_clock w (ticks s)) (Z.of_nat k)
                               (http w (gets s + k)%nat)
                               (wall_clock w (S (ticks s) + k)%nat))
            (seq 0 (Z.to_nat (max_requests self)))
       ++ [Log INFO "Rate limiting test completed."]).
Proof.
  intros HR HC HO. unfold test_rate_limiting, range.
  unfold bind at 1. unfold logging at 1, emit.
  unfold bind at 1. unfold time_time.
  unfold bind at 1. rewrite (loop_run self _ w HR); [|exact HC|exact HO].
  unfold bind, logging, emit, ret. cbn [gets ticks]. simpl app.
  reflexivity.
Qed.

(** With nothing to send the run only logs its two lines, whatever the
    rate. *)
Lemma test_rate_limiting_none self w s :
  max_requests self <= 0 ->
  test_rate_limiting self w s =
    (Ok [], ticked s,
     [Log INFO ("Starting rate limiting test against " +:+ url self);
      Log INFO "Rate limiting test completed."]).
Proof.
  intros HM. unfold test_rate_limiting, range.
  replace (Z.to_nat (max_requests self)) with 0%nat by lia.
  reflexivity.
Qed.

(** A run with at least one request to send ends in its first attempt
    when that attempt does not complete. *)
Lemma test_rate_limiting_first self w s e s1 t1 :
  1 <= max_requests self ->
  attempt self (wall_clock w (ticks s)) 0 [] w (ticked s) = (Raise e, s1, t1) ->
  test_rate_limiting self w s =
    (Raise e, s1,
     Log INFO ("Starting rate limiting test against " +:+ url self) :: t1).
Proof.
  intros HM HA. unfold test_rate_limiting, range.
  destruct (Z.to_nat (max_requests self)) as [|n] eqn:En; [lia|].
  cbn [seq map for_each].
  unfold bind at 1. unfold logging at 1, emit.
  unfold bind at 1. unfold time_time.
  unfold bind at 1.
  change {| gets := gets s; ticks := S (ticks s) |} with (ticked s).
  change (Z.of_nat 0) with 0.
  rewrite (bind_raise _ _ _ _ _ _ _ HA).
  reflexivity.
Qed.

(** With [requests_per_second = 0] and at least one attempt to make, the
    run ends in the division of its first attempt, when its request lets
    no exception through. *)
Lemma test_rate_limiting_zero self w s :
  requests_per_second self = 0 ->
  1 <= max_requests self ->
  escapes self (http w (gets s)) = None ->
  test_rate_limiting self w s =
    (Raise (ZeroDivisionError "division by zero"),
     ticked (sent (ticked s)),
     Log INFO ("Starting rate limiting test against " +:+ url self)
       :: request_events self (http w (gets s))
       ++ branch_events self 0 (http w (gets s))).
Proof.
  intros HR HM HE. apply test_rate_limiting_first; [exact HM|].
  rewrite attempt_run. cbn [ticked gets]. apply escapes_none in HE.
  destruct HE as [v ->]. rewrite HR. reflexivity.
Qed.

(** A run with at least one request to send whose first call of
    [session.get] raises an exception that [send_request] lets through. *)
Lemma test_rate_limiting_crash self w s e :
  1 <= max_requests self ->
  escapes self (http w (gets s)) = Some e ->
  test_rate_limiting self w s =
    (Raise e, sent (ticked s),
     Log INFO ("Starting rate limiting test against " +:+ url self)
       :: request_events self (http w (gets s))).
Proof.
  intros HM HE. apply test_rate_limiting_first; [exact HM|].
  rewrite attempt_run. cbn [ticked gets]. apply escapes_some in HE.
  rewrite HE. reflexivity.
Qed.

(** ** Reading a trace *)

Lemma requests_sent_app t1 t2 :
  requests_sent (t1 ++ t2) = (requests_sent t1 + requests_sent t2)%nat.
Proof. unfold requests_sent. rewrite List.filter_app, length_app. reflexivity. Qed.

Lemma requests_sent_request self o : requests_sent (request_events self o) = 1%nat.
Proof.
  unfold request_events. destruct (checked (timeout self) o) as [r|e]; [reflexivity|].
  destruct (is_RequestException e); reflexivity.
Qed.

Lemma requests_sent_branch self i o : requests_sent (branch_events self i o) = 0%nat.
Proof.
  unfold branch_events. destruct (returned self o) as [[r|]|e];
    try destruct (i mod 10 =? 0); reflexivity.
Qed.

Lemma requests_sent_attempt self start_time i o now :
  requests_sent (attempt_events self start_time i o now) = 1%nat.
Proof.
  unfold attempt_events, pause_events.
  rewrite !requests_sent_app, requests_sent_request, requests_sent_branch.
  destruct (gt_zero _); reflexivity.
Qed.

Lemma requests_sent_flat_map {A} (f : A -> list Event) (l : list A) :
  (forall x, requests_sent (f x) = 1%nat) ->
  requests_sent (flat_map f l) = length l.
Proof.
  intros Hf. induction l as [|x l IH]; simpl; [reflexivity|].
  rewrite requests_sent_app, Hf, IH. reflexivity.
Qed.

Lemma requests_sent_run self w s :
  requests_per_second self <> 0 ->
  no_crash self w (gets s) (Z.to_nat (max_requests self)) ->
  no_overflow self 0 (Z.to_nat (max_requests self)) ->
  requests_sent (events (test_rate_limiting self w s)) = Z.to_nat (max_requests self).
Proof.
  intros HR HC HO. rewrite (test_rate_limiting_run self w s HR HC HO).
  unfold events. cbn [snd]. change (?x :: ?l ++ ?m) with ([x] ++ l ++ m).
  rewrite !requests_sent_app, requests_sent_flat_map, length_seq.
  - unfold requests_sent. simpl. lia.
  - intros k. apply requests_sent_attempt.
Qed.

(** ** Where a run stops *)

Lemma attempt_raises_none self i o :
  attempt_raises self i o = None ->
  requests_per_second self <> 0 /\ escapes self o = None /\
  is_infinite (quotient (i + 1) (requests_per_second self)) = false.
Proof.
  unfold attempt_raises. destruct (escapes self o); [discriminate|].
  destruct (requests_per_second self =? 0) eqn:ER; [discriminate|].
  destruct (is_infinite _); [discriminate|]. intros _.
  apply Z.eqb_neq in ER. auto.
Qed.

Lemma branch_events_escaped self i o e :
  escapes self o = Some e -> branch_events self i o = [].
Proof. intros H. apply escapes_some in H. unfold branch_events. rewrite H. reflexivity. Qed.

(** An attempt that raises stops after its request or after its branch. *)
Lemma attempt_stops self start_time i acc w s e :
  attempt_raises self i (http w (gets s)) = Some e ->
  result (attempt self start_time i acc w s) = Raise e /\
  events (attempt self start_time i acc w s) =
    request_events self (http w (gets s)) ++ branch_events self i (http w (gets s)).
Proof.
  unfold attempt_raises. rewrite attempt_run.
  destruct (escapes self (http w (gets s))) as [e'|] eqn:EE.
  - intros [= <-]. rewrite (branch_events_escaped _ _ _ _ EE), app_nil_r.
    apply escapes_some in EE. rewrite EE. split; reflexivity.
  - apply escapes_none in EE. destruct EE as [v ->].
    destruct (requests_per_second self =? 0); [intros [= <-]; split; reflexivity|].
    destruct (is_infinite _); [intros [= <-]; split; reflexivity|discriminate].
Qed.

(** A loop that stops: it raises the exception of its first attempt that
    raises, after the effects of the attempts before it. *)
Lemma loop_stops self start_time w : forall n a acc s k e,
  first_raise self w (gets s) a n = Some (k, e) ->
  result (for_each (map Z.of_nat (seq a n)) (attempt self start_time) acc w s) = Raise e /\
  events (for_each (map Z.of_nat (seq a n)) (attempt self start_time) acc w s) =
    flat_map (fun j => attempt_events self start_time (Z.of_nat (a + j))
                         (http w (gets s + j)%nat) (wall_clock w (ticks s + j)%nat))
      (seq 0 k)
      ++ request_events self (http w (gets s + k)%nat)
      ++ branch_events self (Z.of_nat (a + k)) (http w (gets s + k)%nat).
Proof.
  induction n as [|n IH]; intros a acc s k e HF; [discriminate HF|].
  cbn [first_raise] in HF. cbn [seq map for_each].
  destruct (attempt_raises self (Z.of_nat a) (http w (gets s))) as [e0|] eqn:EA.
  - injection HF as <- <-.
    destruct (attempt_stops self start_time (Z.of_nat a) acc w s e0 EA) as [Hr He].
    assert (HA : attempt self start_time (Z.of_nat a) acc w s =
                 (Raise e0, final (attempt self start_time (Z.of_nat a) acc w s),
                  events (attempt self start_time (Z.of_nat a) acc w s))).
    { rewrite (run_eta (attempt _ _ _ _ _ _)) at 1. rewrite Hr. reflexivity. }
    rewrite (bind_raise _ _ _ _ _ _ _ HA). unfold result, events at 1. cbn [fst snd].
    rewrite He, !Nat.add_0_r. split; reflexivity.
  - destruct (attempt_raises_none _ _ _ EA) as (HR & HE & HO).
    destruct (first_raise self w (S (gets s)) (S a) n) as [[k' e']|] eqn:EF;
      [|discriminate HF].
    injection HF as <- <-.
    rewrite (bind_ok _ _ _ _ _ _ _
               (attempt_completes self start_time (Z.of_nat a) acc w s HR HE HO)).
    destruct (IH (S a) (acc ++ [entry self (http w (gets s))]) (ticked (sent s)) k' e' EF)
      as [Hr He].
    split; [unfold result at 1; cbn [fst]; exact Hr|].
    unfold events at 1. cbn [snd]. rewrite He.
    cbn [seq flat_map ticked sent gets ticks].
    rewrite flat_map_shift, !Nat.add_0_r, <- app_assoc. f_equal.
    rewrite !Nat.add_succ_r. f_equal.
    apply flat_map_ext. intros j. rewrite !Nat.add_succ_r. reflexivity.
Qed.

Lemma first_raise_none self w : forall n g a,
  first_raise self w g a n = None ->
  (n = 0%nat \/ requests_per_second self <> 0) /\
  no_crash self w g n /\ no_overflow self a n.
Proof.
  induction n as [|n IH]; intros g a HF.
  - split; [left; reflexivity|]. split; intros k Hk; lia.
  - cbn [first_raise] in HF.
    destruct (attempt_raises self (Z.of_nat a) (http w g)) as [e0|] eqn:EA;
      [discriminate HF|].
    destruct (attempt_raises_none _ _ _ EA) as (HR & HE & HO).
    destruct (first_raise self w (S g) (S a) n) as [[k' e']|] eqn:EF; [discriminate HF|].
    destruct (IH _ _ EF) as (_ & HC' & HO').
    split; [right; exact HR|]. split; intros [|k] Hk.
    + rewrite Nat.add_0_r. exact HE.
    + rewrite Nat.add_succ_r. apply (HC' k). lia.
    + rewrite Nat.add_0_r. exact HO.
    + rewrite Nat.add_succ_r. apply (HO' k). lia.
Qed.

(** The first attempt that raises is the first whose request lets an
    exception through or whose division raises. *)
Lemma first_raise_some self w : forall n g a k e,
  first_raise self w g a n = Some (k, e) <->
  (k < n)%nat /\
  attempt_raises self (Z.of_nat (a + k)) (http w (g + k)) = Some e /\
  forall j, (j < k)%nat ->
            attempt_raises self (Z.of_nat (a + j)) (http w (g + j)) = None.
Proof.
  induction n as [|n IH]; intros g a k e.
  - split; [discriminate|intros [H _]; lia].
  - cbn [first_raise].
    destruct (attempt_raises self (Z.of_nat a) (http w g)) as [e0|] eqn:EA.
    + split.
      * intros [= <- <-]. rewrite !Nat.add_0_r. split; [lia|]. split; [exact EA|].
        intros j Hj. lia.
      * intros (Hk & He & Hj). destruct k as [|k].
        -- rewrite !Nat.add_0_r in He. congruence.
        -- specialize (Hj 0%nat ltac:(lia)). rewrite !Nat.add_0_r in Hj. congruence.
    + specialize (IH (S g) (S a)).
      destruct (first_raise self w (S g) (S a) n) as [[k' e']|] eqn:EF.
      * split.
        -- intros [= <- <-]. destruct (proj1 (IH k' e') eq_refl) as (Hk & He & Hj).
           split; [lia|]. rewrite !Nat.add_succ_r. split; [exact He|].
           intros [|j] Hlt; [rewrite !Nat.add_0_r; exact EA|].
           rewrite !Nat.add_succ_r. apply Hj. lia.
        -- intros (Hk & He & Hj). destruct k as [|k].
           ++ rewrite !Nat.add_0_r in He. congruence.
           ++ assert (H : Some (k', e') = Some (k, e)).
              { apply IH. split; [lia|]. rewrite !Nat.add_succ_r in He.
                split; [exact He|]. intros j Hlt. specialize (Hj (S j) ltac:(lia)).
                rewrite !Nat.add_succ_r in Hj. exact Hj. }
              congruence.
      * split; [discriminate|]. intros (Hk & He & Hj). destruct k as [|k].
        -- rewrite !Nat.add_0_r in He. congruence.
        -- assert (H : None = Some (k, e)).
           { apply IH. split; [lia|]. rewrite !Nat.add_succ_r in He.
             split; [exact He|]. intros j Hlt. specialize (Hj (S j) ltac:(lia)).
             rewrite !Nat.add_succ_r in Hj. exact Hj. }
           discriminate H.
Qed.

(** A run that stops. *)
Lemma test_rate_limiting_stops self w s k e :
  stops self w (gets s) = Some (k, e) ->
  result (test_rate_limiting self w s) = Raise e /\
  events (test_rate_limiting self w s) =
    Log INFO ("Starting rate limiting test against " +:+ url self)
      :: flat_map (fun j => attempt_events self (wall_clock w (ticks s)) (Z.of_nat j)
                              (http w (gets s + j)%nat)
                              (wall_clock w (S (ticks s) + j)%nat))
           (seq 0 k)
      ++ request_events self (http w (gets s + k)%nat)
      ++ branch_events self (Z.of_nat k) (http w (gets s + k)%nat).
Proof.
  intros HS. unfold stops in HS.
  destruct (loop_stops self (wall_clock w (ticks s)) w _ 0 [] (ticked s) k e HS)
    as [Hr He].
  unfold test_rate_limiting, range.
  rewrite (bind_ok (logging INFO _) _ w s tt s [Log INFO _] eq_refl).
  rewrite (bind_ok time_time _ w s (wall_clock w (ticks s)) (ticked s) [] eq_refl).
  match goal with
  | |- context [bind ?m ?f w (ticked s)] =>
      assert (HB : bind m f w (ticked s) = (Raise e, final (m w (ticked s)),
                                            events (m w (ticked s))))
  end.
  { apply bind_raise. rewrite (run_eta (for_each _ _ _ _ _)) at 1. rewrite Hr.
    reflexivity. }
  rewrite HB. unfold result, events. cbn [fst snd app].
  split; [reflexivity|]. f_equal. unfold events in He. rewrite He. reflexivity.
Qed.

(** A run that does not stop. *)
Lemma test_rate_limiting_goes self w s :
  stops self w (gets s) = None ->
  test_rate_limiting self w s =
    (Ok (map (fun k => entry self (http w (gets s + k)%nat))
           (seq 0 (Z.to_nat (max_requests self)))),
     {| gets := (gets s + Z.to_nat (max_requests self))%nat;
        ticks := (S (ticks s) + Z.to_nat (max_requests self))%nat |},
     Log INFO ("Starting rate limiting test against " +:+ url self)
       :: flat_map (fun k => attempt_events self (wall_clock w (ticks s)) (Z.of_nat k)
                               (http w (gets s + k)%nat)
                               (wall_clock w (S (ticks s) + k)%nat))
            (seq 0 (Z.to_nat (max_requests self)))
       ++ [Log INFO "Rate limiting test completed."]).
Proof.
  intros HS. destruct (first_raise_none _ _ _ _ _ HS) as ([HN|HR] & HC & HO).
  - rewrite (test_rate_limiting_none self w s) by lia. rewrite HN. cbn.
    unfold ticked. rewrite !Nat.add_0_r. reflexivity.
  - apply (test_rate_limiting_run self w s HR HC HO).
Qed.

Lemma requests_sent_stop self w s k e :
  stops self w (gets s) = Some (k, e) ->
  requests_sent (events (test_rate_limiting self w s)) = S k.
Proof.
  intros HS. rewrite (proj2 (test_rate_limiting_stops self w s k e HS)).
  change (?x :: ?l ++ ?m) with ([x] ++ l ++ m).
  rewrite !requests_sent_app, requests_sent_flat_map, length_seq,
    requests_sent_request, requests_sent_branch.
  - unfold requests_sent. simpl. lia.
  - intros j. apply requests_sent_attempt.
Qed.

Lemma requests_sent_made self w s :
  requests_sent (events (test_rate_limiting self w s)) = attempts_made self w (gets s).
Proof.
  unfold attempts_made. destruct (stops self w (gets s)) as [[k e]|] eqn:HS.
  - apply (requests_sent_stop self w s k e HS).
  - rewrite (test_rate_limiting_goes self w s HS). unfold events. cbn [snd].
    change (?x :: ?l ++ ?m) with ([x] ++ l ++ m).
    rewrite !requests_sent_app, requests_sent_flat_map, length_seq.
    + unfold requests_sent. simpl. lia.
    + intros k. apply requests_sent_attempt.
Qed.

Lemma attempt_raises_not_request self i o e :
  attempt_raises self i o = Some e -> is_RequestException e = false.
Proof.
  unfold attempt_raises. destruct (escapes self o) as [e'|] eqn:EE.
  - intros [= <-]. apply (escapes_not_request _ _ _ EE).
  - destruct (requests_per_second self =? 0); [intros [= <-]; reflexivity|].
    destruct (is_infinite _); [intros [= <-]; reflexivity|discriminate].
Qed.

(** ** The length of the result *)

(** C1, as stated, fails: [http://a..b/] at rate 5 with 5 requests is a
    valid configuration, and when [session.get] raises the
    [LocationParseError] of that host, a [ValueError], the run ends in its
    first attempt and returns no list. *)
Lemma test_rate_limiting_crashes :
  0 < requests_per_second bad_host_tester /\
  0 < max_requests bad_host_tester /\
  0 < timeout bad_host_tester /\
  valid_url (url bad_host_tester) = true /\
  ~ (exists responses,
        result (test_rate_limiting bad_host_tester world_bad_host boot) = Ok responses).
Proof.
  repeat split; try reflexivity.
  intros (responses & H). vm_compute in H. discriminate H.
Qed.

(** C1, amended: for a positive rate and a count that is not negative, in
    a run in which no call of [session.get] raises an exception outside
    [RequestException] and no pacing division overflows, whatever the
    exchanges answer, [test_rate_limiting] returns a list of exactly
    [max_requests] entries after sending exactly [max_requests] requests,
    and every such attempt returns the list it was given with exactly one
    entry appended.  When the call of attempt [k] is the first to raise an
    exception that [send_request] lets through, the run ends there, after
    [k + 1] requests, and raises that exception. *)
Theorem test_rate_limiting_length self w s :
  0 < requests_per_second self ->
  0 <= max_requests self ->
  (no_crash self w (gets s) (Z.to_nat (max_requests self)) ->
   no_overflow self 0 (Z.to_nat (max_requests self)) ->
   exists responses,
     result (test_rate_limiting self w s) = Ok responses /\
     Z.of_nat (length responses) = max_requests self /\
     Z.of_nat (requests_sent (events (test_rate_limiting self w s))) = max_requests self /\
     Z.of_nat (gets (final (test_rate_limiting self w s))) =
       Z.of_nat (gets s) + max_requests self) /\
  (forall start_time i acc s',
      escapes self (http w (gets s')) = None ->
      is_infinite (quotient (i + 1) (requests_per_second self)) = false ->
      exists x, result (attempt self start_time i acc w s') = Ok (acc ++ [x])) /\
  (forall k e,
      (k < Z.to_nat (max_requests self))%nat ->
      no_crash self w (gets s) k ->
      no_overflow self 0 k ->
      escapes self (http w (gets s + k)) = Some e ->
      result (test_rate_limiting self w s) = Raise e /\
      requests_sent (events (test_rate_limiting self w s)) = S k).
Proof.
  intros HR HM.
  assert (HR' : requests_per_second self <> 0) by lia.
  split; [|split].
  - intros HC HO.
    rewrite (requests_sent_run self w s HR' HC HO).
    rewrite (test_rate_limiting_run self w s HR' HC HO).
    eexists. split; [reflexivity|]. unfold final. cbn [fst snd gets].
    repeat split.
    + rewrite length_map, length_seq. lia.
    + lia.
    + lia.
  - intros start_time i acc s' HE HI.
    rewrite (attempt_completes self start_time i acc w s' HR' HE HI).
    eexists. reflexivity.
  - intros k e Hk HC HO HE.
    assert (HS : stops self w (gets s) = Some (k, e)).
    { apply (first_raise_some self w _ (gets s) 0 k e). split; [exact Hk|]. split.
      - unfold attempt_raises. rewrite HE. reflexivity.
      - intros j Hj. unfold attempt_raises. rewrite (HC j Hj).
        apply Z.eqb_neq in HR'. rewrite HR', (HO j Hj). reflexivity. }
    split; [apply (test_rate_limiting_stops self w s k e HS)|].
    apply (requests_sent_stop self w s k e HS).
Qed.

Lemma test_rate_limiting_length_witness :
  exists responses,
    result (test_rate_limiting sample_tester world_down boot) = Ok responses /\
    Z.of_nat (length responses) = 5.
Proof.
  destruct (test_rate_limiting_length sample_tester world_down boot) as (H & _).
  - simpl. lia.
  - simpl. lia.
  - destruct H as (responses & H & HL & _).
    + intros k Hk. vm_compute. reflexivity.
    + intros k Hk. change (Z.to_nat (max_requests sample_tester)) with 5%nat in Hk.
      do 5 (destruct k as [|k]; [vm_compute; reflexivity|]). lia.
    + exists responses. split; [exact H|exact HL].
Defined.

(** ** [send_request] *)

(** C2, as stated, fails: an exchange that completes with 304 is not a 2xx
    exchange, and [send_request] returns its response. *)
Lemma send_request_304_returned :
  ~ (result (send_request sample_tester world_304 boot) = Ok None
     <-> ~ completes_2xx world_304 (gets boot)).
Proof.
  intros [_ H].
  assert (HN : ~ completes_2xx world_304 (gets boot)).
  { intros (r & Hr & Hs). simpl in Hr. injection Hr as <-. simpl in Hs. lia. }
  specialize (H HN). vm_compute in H. discriminate H.
Qed.

(** C2, amended: [send_request] sends one request and never lets a
    [RequestException] through.  When the call of [session.get] returns or
    raises a [RequestException], [send_request] returns: [None] exactly
    when the call raised the exception (timeout, connection error, ...) or
    returned a response with a status in 400..599, and the response of the
    exchange otherwise.  An exception of [session.get] outside
    [RequestException] passes through [send_request] as it is. *)
Theorem send_request_absent_iff self w s :
  (forall e, result (send_request self w s) = Raise e ->
             is_RequestException e = false /\
             delivered (timeout self) (http w (gets s)) = Raise e) /\
  (forall e, delivered (timeout self) (http w (gets s)) = Raise e ->
             is_RequestException e = false ->
             result (send_request self w s) = Raise e) /\
  ((exists r, delivered (timeout self) (http w (gets s)) = Ok r) \/
   (exists e, delivered (timeout self) (http w (gets s)) = Raise e /\
              is_RequestException e = true) ->
   exists v,
     result (send_request self w s) = Ok v /\
     (v = None <->
        (exists e, delivered (timeout self) (http w (gets s)) = Raise e /\
                   is_RequestException e = true) \/
        (exists r, delivered (timeout self) (http w (gets s)) = Ok r /\
                   400 <= status_code r < 600)) /\
     (forall r, v = Some r -> http w (gets s) = Completed r)) /\
  requests_sent (events (send_request self w s)) = 1%nat.
Proof.
  rewrite send_request_run. unfold result, events. cbn [fst snd].
  split; [|split; [|split; [|apply requests_sent_request]]].
  - intros e He. split; [apply (escapes_not_request self (http w (gets s))), escapes_some, He|].
    unfold returned, checked in He.
    destruct (delivered (timeout self) (http w (gets s))) as [r|e'].
    + destruct (ok r) eqn:E.
      * rewrite (raise_for_status_ok _ E) in He. discriminate He.
      * destruct (raise_for_status_raise _ E) as [msg Hm]. rewrite Hm in He.
        discriminate He.
    + destruct (is_RequestException e'); [discriminate He|]. injection He as <-.
      reflexivity.
  - intros e HD HE. unfold returned, checked. rewrite HD, HE. reflexivity.
  - intros HD.
    assert (HN : exists v, returned self (http w (gets s)) = Ok v).
    { unfold returned, checked. destruct HD as [[r ->]|(e & -> & ->)]; [|eauto].
      destruct (ok r) eqn:E.
      - rewrite (raise_for_status_ok _ E). eauto.
      - destruct (raise_for_status_raise _ E) as [msg ->]. eauto. }
    clear HD. destruct HN as [v ER]. rewrite ER.
    exists v. split; [reflexivity|]. unfold returned, checked in ER.
    destruct (delivered (timeout self) (http w (gets s))) as [r|e] eqn:ED.
    + destruct (ok r) eqn:E.
      * rewrite (raise_for_status_ok _ E) in ER. injection ER as <-. split.
        -- split; [discriminate|].
           intros [(e & H & _)|(r' & H & Hs)]; [discriminate|].
           injection H as <-. apply ok_true_iff in E. contradiction.
        -- intros r' [= <-]. unfold delivered in ED.
           destruct (http w (gets s)) as [r'|k msg|e];
             destruct (timeout self <=? 0); try discriminate. congruence.
      * destruct (raise_for_status_raise _ E) as [msg Hm]. rewrite Hm in ER.
        cbn [is_RequestException] in ER. injection ER as <-. split; [|discriminate].
        split; [|reflexivity]. intros _. right. exists r.
        split; [reflexivity|]. apply ok_false_iff, E.
    + destruct (is_RequestException e) eqn:EE; [|discriminate].
      injection ER as <-. split; [|discriminate].
      split; [|reflexivity]. intros _. left. eauto.
Qed.

(** ** [analyze_response] *)

(** C8, as stated, fails: a 429 response is false as a condition, so
    [analyze_response] returns [None] for it, not a record, although the
    response carries [Retry-After: 30]. *)
Lemma analyze_response_429_absent :
  cid_get "Retry-After" (headers throttled) = Some "30" /\
  ~ (exists info, analyze_response sample_tester (Some throttled) = Some info).
Proof.
  split; [vm_compute; reflexivity|].
  intros (info & H). vm_compute in H. discriminate H.
Qed.

Lemma analyze_response_error_status self r :
  400 <= status_code r < 600 -> analyze_response self (Some r) = None.
Proof.
  intros H. apply ok_false_iff in H.
  unfold analyze_response. simpl. rewrite H. reflexivity.
Qed.

(** C8, amended: for a response whose status is outside 400..599,
    [analyze_response] returns a record with the status code and the five
    headers, a header the response lacks giving an absent field; so a
    response with [Retry-After: 30] has [retry_after = "30"]. *)
Theorem analyze_response_record self r :
  ~ (400 <= status_code r < 600) ->
  exists info,
    analyze_response self (Some r) = Some info /\
    Info.status_code info = status_code r /\
    Info.x_ratelimit_limit info = cid_get "X-RateLimit-Limit" (headers r) /\
    Info.x_ratelimit_remaining info = cid_get "X-RateLimit-Remaining" (headers r) /\
    Info.x_ratelimit_reset info = cid_get "X-RateLimit-Reset" (headers r) /\
    Info.retry_after info = cid_get "Retry-After" (headers r) /\
    Info.content_length info = cid_get "Content-Length" (headers r) /\
    (forall name rest,
        lower name = "retry-after" ->
        headers r = cid_set name "30" rest ->
        Info.retry_after info = Some "30").
Proof.
  intros H.
  apply ok_true_iff in H. unfold analyze_response. simpl. rewrite H. simpl.
  eexists. split; [reflexivity|]. cbn. repeat split.
  intros name rest Hn ->. unfold cid_get, cid_set. cbn.
  rewrite Hn. change (lower "Retry-After") with "retry-after".
  rewrite lookup_insert_eq. reflexivity.
Qed.

Lemma analyze_response_record_witness :
  exists info,
    analyze_response sample_tester (Some served_200) = Some info /\
    Info.status_code info = 200 /\
    Info.retry_after info = Some "30" /\
    Info.content_length info = None.
Proof.
  destruct (analyze_response_record sample_tester served_200)
    as (info & H & Hs & _ & _ & _ & Hr & Hc & _).
  - simpl. lia.
  - exists info. repeat split; [exact H | exact Hs | rewrite Hr | rewrite Hc];
      vm_compute; reflexivity.
Defined.

(** ** [report_results] *)

Lemma report_one_run ir b e w s :
  report_one ir (b, e) w s =
    (Ok (b + Z.b2z (is_blocked (snd ir)), e + Z.b2z (is_absent (snd ir))), s, listing ir).
Proof.
  destruct ir as [i [d|]]; unfold report_one, listing, is_blocked; cbn [fst snd].
  - unfold bind, print, emit, ret, existsb. cbn [for_each Info.items map fst snd].
    unfold bind, print, emit, ret. cbn [app].
    destruct (Info.status_code d =? 429); destruct (Info.status_code d =? 503);
      cbn [orb is_absent Z.b2z]; rewrite ?Z.add_0_r; reflexivity.
  - unfold bind, print, emit, ret. cbn [app is_absent Z.b2z]. rewrite Z.add_0_r.
    reflexivity.
Qed.

Lemma report_loop_run l : forall b e w s,
  for_each l report_one (b, e) w s =
    (Ok (b + Z.of_nat (count_blocked (map snd l)), e + Z.of_nat (count_absent (map snd l))),
     s, flat_map listing l).
Proof.
  induction l as [|ir l IH]; intros b e w s.
  - simpl. unfold ret. rewrite !Z.add_0_r. reflexivity.
  - cbn [for_each]. rewrite (bind_ok _ _ _ _ _ _ _ (report_one_run ir b e w s)).
    rewrite IH. unfold result, final, events. cbn [fst snd flat_map map].
    unfold count_blocked, count_absent. cbn [List.filter].
    destruct (is_blocked (snd ir)); destruct (is_absent (snd ir));
      cbn [length Z.b2z]; do 4 f_equal; lia.
Qed.

Lemma enumerate_snd {A} (rs : list A) : map snd (enumerate rs) = rs.
Proof.
  unfold enumerate, range. rewrite Nat2Z.id. generalize 0%nat.
  induction rs as [|r rs IH]; intros a; simpl; [reflexivity|].
  rewrite IH. reflexivity.
Qed.

Ltac lines_differ H :=
  unfold detected_line, not_detected_line, nl in H; simpl in H; discriminate H.

Lemma listing_no_verdict l :
  ~ In (Print detected_line) (flat_map listing l) /\
  ~ In (Print not_detected_line) (flat_map listing l).
Proof.
  split; intros H; apply in_flat_map in H; destruct H as ([i [d|]] & _ & H);
    unfold listing in H; cbn [fst snd Info.items map In] in H;
    repeat (destruct H as [H|H]; [lines_differ H|]); exact H.
Qed.

Lemma report_results_run self rs w s :
  rs <> [] ->
  report_results self rs w s =
    (Ok tt, s,
     Print (nl +:+ "--- Rate Limiting Test Results ---")
        :: flat_map listing (enumerate rs)
        ++ [Print (nl +:+ "--- Summary ---");
            Print ("Total Requests: " +:+ str_int (Z.of_nat (length rs)));
            Print ("Blocked Requests (429/503): "
                     +:+ str_int (Z.of_nat (count_blocked rs)));
            Print ("Failed Requests: " +:+ str_int (Z.of_nat (count_absent rs)));
            Print (if (0 <? count_blocked rs)%nat
                   then detected_line else not_detected_line)]).
Proof.
  intros Hne. destruct rs as [|r rs]; [contradiction|].
  unfold report_results. generalize (r :: rs). clear. intros rs.
  unfold bind at 1. unfold print at 1, emit.
  unfold bind at 1. rewrite report_loop_run, enumerate_snd.
  rewrite !Z.add_0_l.
  replace (0 <? Z.of_nat (count_blocked rs)) with (0 <? count_blocked rs)%nat.
  2:{ destruct (count_blocked rs); reflexivity. }
  unfold bind, print, emit, detected_line, not_detected_line.
  destruct (0 <? count_blocked rs)%nat; reflexivity.
Qed.

(** C3, as stated, fails on the empty list: nothing is blocked there, and
    the "no rate limiting" verdict is not printed. *)
Lemma empty_report_has_no_verdict :
  count_blocked [] = 0%nat /\
  ~ In (Print not_detected_line)
       (events (report_results sample_tester [] world_304 boot)).
Proof.
  split; [reflexivity|]. simpl. intros [H|[]]. discriminate H.
Qed.

(** C3, amended: for every list of results that is not empty,
    [report_results] prints the header, the listing of every request, and a
    summary whose blocked count is the number of records with status 429 or
    503 and whose failed count is the number of absent entries; the last
    line is the "detected" verdict exactly when the blocked count is
    positive and the "not detected" verdict otherwise, and neither verdict
    is printed anywhere else. *)
Theorem report_results_counts self rs w s :
  rs <> [] ->
  let t := events (report_results self rs w s) in
  result (report_results self rs w s) = Ok tt /\
  t = Print (nl +:+ "--- Rate Limiting Test Results ---")
        :: flat_map listing (enumerate rs)
        ++ [Print (nl +:+ "--- Summary ---");
            Print ("Total Requests: " +:+ str_int (Z.of_nat (length rs)));
            Print ("Blocked Requests (429/503): "
                     +:+ str_int (Z.of_nat (count_blocked rs)));
            Print ("Failed Requests: " +:+ str_int (Z.of_nat (count_absent rs)));
            Print (if (0 <? count_blocked rs)%nat
                   then detected_line else not_detected_line)] /\
  (In (Print detected_line) t <-> (0 < count_blocked rs)%nat) /\
  (In (Print not_detected_line) t <-> count_blocked rs = 0%nat).
Proof.
  intros Hne t.
  subst t. rewrite (report_results_run self rs w s Hne). unfold result, events. cbn [fst snd].
  destruct (listing_no_verdict (enumerate rs)) as [HD HN].
  split; [reflexivity|]. split; [reflexivity|].
  split; (split; [intros [H|H]; [lines_differ H|]|intros H]).
  - apply in_app_iff in H. destruct H as [H|H]; [contradiction|].
    cbn [In] in H. repeat (destruct H as [H|H]; [try lines_differ H|]); [|contradiction].
    destruct (count_blocked rs); [lines_differ H|lia].
  - right. apply in_app_iff. right. cbn [In]. do 4 right. left.
    destruct (count_blocked rs); [lia|reflexivity].
  - apply in_app_iff in H. destruct H as [H|H]; [contradiction|].
    cbn [In] in H. repeat (destruct H as [H|H]; [try lines_differ H|]); [|contradiction].
    destruct (count_blocked rs); [reflexivity|lines_differ H].
  - right. apply in_app_iff. right. cbn [In]. do 4 right. left.
    rewrite H. reflexivity.
Qed.

Lemma report_results_counts_witness :
  In (Print detected_line)
     (events (report_results sample_tester sample_results world_up boot)).
Proof.
  destruct (report_results_counts sample_tester sample_results world_up boot)
    as (_ & _ & H & _).
  - discriminate.
  - apply H. vm_compute. lia.
Defined.


(** C9: on the empty list [report_results] only logs a warning and
    returns: it prints no line at all. *)
Theorem report_results_empty self w s :
  report_results self [] w s = (Ok tt, s, [Log WARNING "No responses to report."]) /\
  forall line, ~ In (Print line) (events (report_results self [] w s)).
Proof.
  split; [reflexivity|].
  intros line [H|[]]. discriminate H.
Qed.

Lemma report_results_returns self rs w s :
  result (report_results self rs w s) = Ok tt /\ final (report_results self rs w s) = s.
Proof.
  destruct rs as [|r rs]; [split; reflexivity|].
  rewrite report_results_run by discriminate. split; reflexivity.
Qed.

(** ** What a computation may emit and raise *)

Section Safe.
Context (w : World) (P : Event -> Prop) (E : Exn -> Prop).

Lemma safe_ret {A} (a : A) : safe w P E (ret a).
Proof. intros s. split; [constructor|discriminate]. Qed.

Lemma safe_emit e : P e -> safe w P E (emit e).
Proof. intros H s. split; [repeat constructor; exact H|discriminate]. Qed.

Lemma safe_time_time : safe w P E time_time.
Proof. intros s. split; [constructor|discriminate]. Qed.

Lemma safe_bind {A B} (m : M A) (f : A -> M B) :
  safe w P E m -> (forall a, safe w P E (f a)) -> safe w P E (bind m f).
Proof.
  intros Hm Hf s. specialize (Hm s). unfold bind.
  destruct (m w s) as [[[a|e] s1] t1]; unfold events, result in *; cbn [fst snd] in *.
  - specialize (Hf a s1). destruct (f a w s1) as [[r s2] t2].
    unfold events, result in *; cbn [fst snd] in *.
    destruct Hm as [Hm _], Hf as [Hf1 Hf2]. split; [|exact Hf2].
    apply Forall_app. split; assumption.
  - destruct Hm as [Hm1 Hm2]. split; [exact Hm1|].
    intros e' [= <-]. apply Hm2. reflexivity.
Qed.

Lemma safe_for_each {A V} (body : A -> V -> M V) (xs : list A) :
  (forall x v, safe w P E (body x v)) -> forall v, safe w P E (for_each xs body v).
Proof.
  intros Hb. induction xs as [|x xs IH]; intros v; cbn [for_each].
  - apply safe_ret.
  - apply safe_bind; [apply Hb|exact IH].
Qed.
End Safe.

Lemma tester_event_request self o : Forall (tester_event self) (request_events self o).
Proof.
  unfold request_events. constructor; [constructor|].
  destruct (checked (timeout self) o) as [r|e]; [constructor|].
  destruct (is_RequestException e); repeat constructor.
Qed.

Lemma safe_send_request self w :
  safe w (tester_event self) (loop_exception self w) (send_request self).
Proof.
  intros s. rewrite send_request_run. unfold events, result. cbn [fst snd].
  split; [apply tester_event_request|].
  intros e He. apply (le_escaped self w (gets s)). apply escapes_some, He.
Qed.

Lemma safe_attempt self w start_time i acc :
  safe w (tester_event self) (loop_exception self w) (attempt self start_time i acc).
Proof.
  unfold attempt.
  apply safe_bind; [apply safe_send_request|].
  intros response. apply safe_bind.
  { destruct (truthy_response response).
    - apply safe_bind; [|intros; apply safe_ret].
      destruct (i mod 10 =? 0); [apply safe_emit; constructor|apply safe_ret].
    - apply safe_bind; [|intros; apply safe_ret]. apply safe_emit. constructor. }
  intros responses. apply safe_bind; [apply safe_time_time|].
  intros now. apply safe_bind.
  { unfold true_div. destruct (requests_per_second self =? 0) eqn:ER.
    - intros s. split; [constructor|]. intros e [= <-].
      apply le_zero, Z.eqb_eq, ER.
    - destruct (is_infinite _); [|apply safe_ret].
      intros s. split; [constructor|]. intros e [= <-]. apply le_overflow. }
  intros target. apply safe_bind; [|intros; apply safe_ret].
  destruct (gt_zero _); [apply safe_emit; constructor|apply safe_ret].
Qed.

Lemma safe_test_rate_limiting self w :
  safe w (tester_event self) (loop_exception self w) (test_rate_limiting self).
Proof.
  unfold test_rate_limiting.
  apply safe_bind; [apply safe_emit; constructor|]. intros _.
  apply safe_bind; [apply safe_time_time|]. intros start_time.
  apply safe_bind; [apply safe_for_each; intros; apply safe_attempt|]. intros rs.
  apply safe_bind; [apply safe_emit; constructor|]. intros _. apply safe_ret.
Qed.

Lemma loop_exception_not_request self w e :
  loop_exception self w e -> is_RequestException e = false.
Proof.
  intros [H| |n e' H]; try reflexivity. apply (escapes_not_request _ _ _ H).
Qed.

Lemma report_results_events self rs w s :
  Forall reporter_event (events (report_results self rs w s)).
Proof.
  destruct rs as [|r rs]; [repeat constructor|].
  rewrite report_results_run by discriminate. unfold events. cbn [snd].
  constructor; [constructor|]. apply Forall_app. split.
  - apply List.Forall_forall. intros e He. apply in_flat_map in He.
    destruct He as ([i [d|]] & _ & He); unfold listing in He;
      cbn [fst snd Info.items map In] in He;
      repeat (destruct He as [<-|He]; [constructor|]); contradiction.
  - repeat constructor.
Qed.

(** ** [main] *)

Lemma verbose_run {A} args (k : M A) w s :
  bind (if Args.verbose args then emit (SetLevel DEBUG) else ret tt) (fun _ => k) w s =
    (result (k w s), final (k w s), verbose_events args ++ events (k w s)).
Proof.
  unfold verbose_events. destruct (Args.verbose args).
  - apply (bind_ok (emit (SetLevel DEBUG)) (fun _ => k) w s tt s [SetLevel DEBUG] eq_refl).
  - apply (bind_ok (ret tt) (fun _ => k) w s tt s [] eq_refl).
Qed.

Lemma main_invalid args w s :
  valid_url (Args.url args) = false ->
  main args w s = (Ok 1, s, verbose_events args ++ [invalid_url_error]).
Proof.
  intros H. unfold valid_url in H. unfold main. rewrite verbose_run.
  unfold try_except, main_try. rewrite H. reflexivity.
Qed.

Lemma main_try_valid args w s :
  valid_url (Args.url args) = true ->
  main_try args w s =
    match test_rate_limiting (tester_of args) w s with
    | (Ok rs, s1, t1) =>
        (Ok 0, s1, t1 ++ events (report_results (tester_of args) rs w s1))
    | (Raise e, s1, t1) => (Raise e, s1, t1)
    end.
Proof.
  intros H. unfold valid_url in H. unfold main_try. rewrite H. cbn [negb].
  fold (tester_of args).
  rewrite (bind_ok (ret tt) _ w s tt s [] eq_refl).
  cbn [app]. rewrite <- run_eta.
  destruct (test_rate_limiting (tester_of args) w s) as [[[rs|e] s1] t1] eqn:ET.
  - rewrite (bind_ok _ _ _ _ _ _ _ ET).
    pose proof (report_results_returns (tester_of args) rs w s1) as [Hr Hf].
    assert (HR : report_results (tester_of args) rs w s1 =
                 (Ok tt, s1, events (report_results (tester_of args) rs w s1))).
    { rewrite (run_eta (report_results _ _ _ _)) at 1. rewrite Hr, Hf. reflexivity. }
    rewrite (bind_ok _ _ _ _ _ _ _ HR).
    unfold ret, result, final, events at 1 3. cbn [fst snd]. rewrite app_nil_r.
    reflexivity.
  - rewrite (bind_raise _ _ _ _ _ _ _ ET). reflexivity.
Qed.

Lemma main_valid args w s :
  valid_url (Args.url args) = true ->
  main args w s =
    match test_rate_limiting (tester_of args) w s with
    | (Ok rs, s1, t1) =>
        (Ok 0, s1,
         verbose_events args ++ t1 ++ events (report_results (tester_of args) rs w s1))
    | (Raise e, s1, t1) =>
        (Ok 1, s1,
         verbose_events args ++ t1 ++
           [Log ERROR ((if is_ValueError e then "Invalid input: "
                        else "An unexpected error occurred: ") +:+ str_exn e)])
    end.
Proof.
  intros H. unfold main. rewrite verbose_run.
  unfold try_except. rewrite (main_try_valid args w s H).
  destruct (test_rate_limiting (tester_of args) w s) as [[[rs|e] s1] t1].
  - reflexivity.
  - destruct e; reflexivity.
Qed.

Lemma test_rate_limiting_starts self w s :
  exists rest,
    events (test_rate_limiting self w s) =
      Log INFO ("Starting rate limiting test against " +:+ url self) :: rest.
Proof.
  unfold test_rate_limiting.
  rewrite (bind_ok (logging INFO _) _ w s tt s [Log INFO _] eq_refl).
  eexists. reflexivity.
Qed.

Lemma bind_prefix {A B} (m : M A) (f : A -> M B) w s :
  exists rest, events (bind m f w s) = events (m w s) ++ rest.
Proof.
  unfold bind. destruct (m w s) as [[[a|e] s1] t1].
  - destruct (f a w s1) as [[r s2] t2]. exists t2. reflexivity.
  - exists []. unfold events. cbn [snd]. rewrite app_nil_r. reflexivity.
Qed.

Lemma for_each_app {A V} (body : A -> V -> M V) (l1 l2 : list A) : forall v w s,
  for_each (l1 ++ l2) body v w s = bind (for_each l1 body v) (for_each l2 body) w s.
Proof.
  induction l1 as [|x l1 IH]; intros v w s.
  - cbn [app for_each]. unfold bind, ret.
    destruct (for_each l2 body v w s) as [[r s2] t2]. reflexivity.
  - cbn [app for_each]. unfold bind at 1 2 3.
    destruct (body x v w s) as [[[v'|e] s1] t1]; [|reflexivity].
    rewrite IH. unfold bind.
    destruct (for_each l1 body v' w s1) as [[[v''|e] s2] t2]; [|reflexivity].
    destruct (for_each l2 body v'' w s2) as [[r s3] t3].
    rewrite app_assoc. reflexivity.
Qed.

(** A run with at least one attempt to make sends at least one request. *)
Lemma loop_sends self start_time w l : forall acc s,
  l <> [] ->
  (1 <= requests_sent (events (for_each l (attempt self start_time) acc w s)))%nat.
Proof.
  destruct l as [|i l]; intros acc s Hne; [contradiction|].
  cbn [for_each].
  destruct (bind_prefix (attempt self start_time i acc) (for_each l (attempt self start_time))
              w s) as [rest ->].
  rewrite requests_sent_app, attempt_run.
  destruct (returned self (http w (gets s))) as [v|e].
  - destruct (requests_per_second self =? 0);
      [|destruct (is_infinite _)]; unfold events; cbn [snd];
      rewrite ?requests_sent_app, ?requests_sent_attempt, ?requests_sent_request; lia.
  - unfold events. cbn [snd]. rewrite requests_sent_request. lia.
Qed.

Lemma test_rate_limiting_sends self w s :
  1 <= max_requests self ->
  (1 <= requests_sent (events (test_rate_limiting self w s)))%nat.
Proof.
  intros HM. unfold test_rate_limiting.
  rewrite (bind_ok (logging INFO _) _ w s tt s [Log INFO _] eq_refl).
  unfold events at 1. cbn [snd]. rewrite requests_sent_app.
  rewrite (bind_ok time_time _ w s (wall_clock w (ticks s)) (ticked s) [] eq_refl).
  unfold events at 1. cbn [snd app].
  match goal with
  | |- context [bind (for_each ?l (attempt self ?st) ?v) ?f w ?s0] =>
      destruct (bind_prefix (for_each l (attempt self st) v) f w s0) as [rest ->];
      pose proof (loop_sends self st w l v s0) as HL
  end.
  rewrite requests_sent_app.
  assert (Hne : range (max_requests self) <> []).
  { unfold range. destruct (Z.to_nat (max_requests self)) eqn:E; [lia|discriminate]. }
  specialize (HL Hne). lia.
Qed.

Lemma test_rate_limiting_raises_sends self w s e :
  result (test_rate_limiting self w s) = Raise e ->
  (1 <= requests_sent (events (test_rate_limiting self w s)))%nat.
Proof.
  intros He. destruct (Z_le_dec 1 (max_requests self)) as [HM|HM].
  - apply test_rate_limiting_sends, HM.
  - rewrite (test_rate_limiting_none self w s) in He by lia. discriminate He.
Qed.

Lemma append_inj_l (p a b : string) : p +:+ a = p +:+ b -> a = b.
Proof.
  induction p as [|c p IH]; simpl; [auto|]. intros [= H]. apply IH, H.
Qed.

Lemma requests_sent_verbose args : requests_sent (verbose_events args) = 0%nat.
Proof. unfold verbose_events. destruct (Args.verbose args); reflexivity. Qed.

(** C7, as stated, fails: [http://t/] starts with [http://], and with a
    timeout of 0 [main] still logs an "Invalid input" error and exits with
    status 1: [session.get] raises the [ValueError] of the timeout, which
    [send_request] lets through to the handler of the validation. *)
Lemma valid_url_reported_invalid :
  startswith_any ["http://"; "https://"] (Args.url args_timeout_0) = true /\
  result (main args_timeout_0 world_up boot) = Ok 1 /\
  In (Log ERROR ("Invalid input: Attempted to set connect timeout to 0, "
                   +:+ "but the timeout cannot be set to a value less than or equal to 0."))
     (events (main args_timeout_0 world_up boot)).
Proof.
  split; [reflexivity|]. split; [vm_compute; reflexivity|].
  vm_compute. right. right. left. reflexivity.
Qed.

(** C7, amended: a URL that starts with neither [http://] nor [https://]
    makes [main] log the error and exit with status 1, no request sent.  A
    URL that starts with one of them passes the validation: the test is
    started, [main] exits with status 1 only after a call of
    [session.get], and an "Invalid input" error is logged only when such a
    call raised a [ValueError] that [send_request] let through, with the
    message of that exception. *)
Theorem main_url_validation args w :
  if startswith_any ["http://"; "https://"] (Args.url args)
  then (exists rest,
           events (main args w boot) =
             verbose_events args
               ++ Log INFO ("Starting rate limiting test against " +:+ Args.url args)
               :: rest) /\
       (result (main args w boot) = Ok 1 ->
        (1 <= requests_sent (events (main args w boot)))%nat) /\
       (forall msg, In (Log ERROR ("Invalid input: " +:+ msg)) (events (main args w boot)) ->
                    exists n, escapes (tester_of args) (http w n) = Some (ValueError msg))
  else result (main args w boot) = Ok 1 /\
       events (main args w boot) = verbose_events args ++ [invalid_url_error] /\
       requests_sent (events (main args w boot)) = 0%nat.
Proof.
  destruct (startswith_any _ _) eqn:H.
  - rewrite (main_valid args w boot H).
    destruct (safe_test_rate_limiting (tester_of args) w boot) as [HF HE].
    destruct (test_rate_limiting_starts (tester_of args) w boot) as [rest Hrest].
    pose proof (report_results_events (tester_of args)) as HP.
    pose proof (test_rate_limiting_raises_sends (tester_of args) w boot) as HS.
    destruct (test_rate_limiting (tester_of args) w boot) as [[[rs|e] s1] t1];
      unfold events, result in *; cbn [fst snd] in *; subst t1.
    + split; [eexists; reflexivity|]. split; [discriminate|].
      intros msg Hin. exfalso. rewrite !in_app_iff in Hin. destruct Hin as [Hin|[Hin|Hin]].
      * unfold verbose_events in Hin. destruct (Args.verbose args); [|contradiction].
        destruct Hin as [Hin|[]]. discriminate Hin.
      * rewrite List.Forall_forall in HF. specialize (HF _ Hin). inversion HF.
      * specialize (HP rs w s1). rewrite List.Forall_forall in HP.
        specialize (HP _ Hin). inversion HP.
    + split; [eexists; rewrite <- app_comm_cons; reflexivity|]. split.
      * intros _. specialize (HS e eq_refl). rewrite !requests_sent_app. lia.
      * intros msg Hin. rewrite !in_app_iff in Hin. destruct Hin as [Hin|[Hin|Hin]].
        -- unfold verbose_events in Hin. destruct (Args.verbose args); [|contradiction].
           destruct Hin as [Hin|[]]. discriminate Hin.
        -- rewrite List.Forall_forall in HF. specialize (HF _ Hin). inversion HF.
        -- destruct Hin as [Hin|[]]. specialize (HE e eq_refl).
           destruct HE as [HR| |n e HN]; cbn [is_ValueError] in Hin;
             try (simpl in Hin; discriminate Hin).
           destruct e as [k m|m|m|m|c m]; cbn [is_ValueError str_exn] in Hin;
             try (simpl in Hin; discriminate Hin).
           injection Hin as Hin. apply append_inj_l in Hin. subst m.
           exists n. exact HN.
  - rewrite (main_invalid args w boot H). unfold result, events. cbn [fst snd].
    repeat split. unfold verbose_events, requests_sent.
    destruct (Args.verbose args); reflexivity.
Qed.

(** ** The User-Agent *)

Lemma session_user_agent url rps n t ua :
  cid_get "User-Agent" (session_headers (session (__init__ url rps n t ua))) =
    Some (user_agent (__init__ url rps n t ua)).
Proof.
  unfold __init__. cbn [session session_headers user_agent cid_update fold_left fst snd].
  unfold cid_get, cid_set. cbn [_store].
  rewrite lookup_insert_eq. reflexivity.
Qed.

Lemma init_uses_user_agent url rps n t ua :
  uses_user_agent (__init__ url rps n t ua) (user_agent (__init__ url rps n t ua)).
Proof.
  split; [reflexivity|]. intros w s.
  destruct (safe_test_rate_limiting (__init__ url rps n t ua) w s) as [HF _].
  unfold sends_user_agent. eapply List.Forall_impl; [|exact HF].
  intros e He u d h ->. inversion He. apply session_user_agent.
Qed.

(** C10: a tester built with a false [user_agent] ([None] or the empty
    string) uses the default User-Agent for all its requests; one built
    with a non-empty string uses that string. *)
Theorem init_user_agent url rps n t :
  uses_user_agent (__init__ url rps n t None) "vuln-Rate-Limiting-Tester/1.0" /\
  uses_user_agent (__init__ url rps n t (Some "")) "vuln-Rate-Limiting-Tester/1.0" /\
  forall c u, uses_user_agent (__init__ url rps n t (Some (String c u))) (String c u).
Proof.
  split; [|split; [|intros c u]]; apply init_uses_user_agent.
Qed.

(** ** Pacing *)

Lemma sleeps_app t1 t2 : sleeps (t1 ++ t2) = sleeps t1 ++ sleeps t2.
Proof. unfold sleeps. apply flat_map_app. Qed.

Lemma sleeps_flat_map {A} (f : A -> list Event) (l : list A) :
  sleeps (flat_map f l) = flat_map (fun x => sleeps (f x)) l.
Proof.
  induction l as [|x l IH]; simpl; [reflexivity|].
  rewrite sleeps_app, IH. reflexivity.
Qed.

Lemma sleeps_request self o : sleeps (request_events self o) = [].
Proof.
  unfold request_events. destruct (checked (timeout self) o) as [r|e]; [reflexivity|].
  destruct (is_RequestException e); reflexivity.
Qed.

Lemma sleeps_branch self i o : sleeps (branch_events self i o) = [].
Proof.
  unfold branch_events. destruct (returned self o) as [[r|]|e];
    try destruct (i mod 10 =? 0); reflexivity.
Qed.

Lemma sleeps_attempt self start_time i o now :
  sleeps (attempt_events self start_time i o now) =
    if gt_zero (slack self start_time now i)
    then [slack self start_time now i] else [].
Proof.
  unfold attempt_events, pause_events.
  rewrite !sleeps_app, sleeps_request, sleeps_branch.
  destruct (gt_zero (slack self start_time now i)); reflexivity.
Qed.

Lemma sleeps_run self w s :
  requests_per_second self <> 0 ->
  no_crash self w (gets s) (Z.to_nat (max_requests self)) ->
  no_overflow self 0 (Z.to_nat (max_requests self)) ->
  sleeps (events (test_rate_limiting self w s)) =
    flat_map
      (fun k =>
         if gt_zero (slack self (wall_clock w (ticks s))
                       (wall_clock w (S (ticks s) + k)) (Z.of_nat k))
         then [slack self (wall_clock w (ticks s))
                 (wall_clock w (S (ticks s) + k)) (Z.of_nat k)]
         else [])
      (seq 0 (Z.to_nat (max_requests self))).
Proof.
  intros HR HC HO. rewrite (test_rate_limiting_run self w s HR HC HO).
  unfold events. cbn [snd].
  change (?x :: ?l ++ ?m) with ([x] ++ l ++ m).
  rewrite !sleeps_app, sleeps_flat_map. cbn [sleeps flat_map app].
  rewrite app_nil_r. apply flat_map_ext. intros k. apply sleeps_attempt.
Qed.

(** C5, as stated, fails: at attempt 0 of this run the target less the
    elapsed time is positive, and the loop does not sleep, because the
    call of [session.get] raised a [ValueError] and the attempt ended
    before its pacing step. *)
Lemma pacing_skipped_on_crash :
  0 < requests_per_second bad_host_tester /\
  0 < max_requests bad_host_tester /\
  gt_zero (fsub (quotient (0 + 1) (requests_per_second bad_host_tester))
             (fsub (wall_clock world_bad_host 1) (wall_clock world_bad_host 0))) = true /\
  sleeps (events (test_rate_limiting bad_host_tester world_bad_host boot)) = [].
Proof. repeat split; vm_compute; reflexivity. Qed.

(** C5, amended: with a positive rate [R], an attempt [i] whose request
    lets no exception through and whose division [(i + 1) / R] does not
    overflow compares the target [(i + 1) / R] with the time elapsed since
    the start of the run, both as floats, at its end: after the request and
    its log lines it sleeps for exactly the difference when the difference
    is greater than zero, and does not sleep otherwise.  In a run whose
    attempts are all such, these are all the sleeps of the run, in order.
    An attempt whose request lets an exception through does not sleep. *)
Theorem pacing_sleeps self w s :
  0 < requests_per_second self ->
  (forall start_time i acc s',
      escapes self (http w (gets s')) = None ->
      is_infinite (quotient (i + 1) (requests_per_second self)) = false ->
      let target_elapsed := quotient (i + 1) (requests_per_second self) in
      let actual_elapsed := fsub (wall_clock w (ticks s')) start_time in
      let sleep_time := fsub target_elapsed actual_elapsed in
      events (attempt self start_time i acc w s') =
        request_events self (http w (gets s'))
          ++ branch_events self i (http w (gets s'))
          ++ (if gt_zero sleep_time then [Sleep sleep_time] else []) /\
      sleeps (events (attempt self start_time i acc w s')) =
        if gt_zero sleep_time then [sleep_time] else []) /\
  (no_crash self w (gets s) (Z.to_nat (max_requests self)) ->
   no_overflow self 0 (Z.to_nat (max_requests self)) ->
   sleeps (events (test_rate_limiting self w s)) =
     flat_map
       (fun i : nat =>
          let target_elapsed := quotient (Z.of_nat i + 1) (requests_per_second self) in
          let actual_elapsed :=
            fsub (wall_clock w (S (ticks s) + i)) (wall_clock w (ticks s)) in
          let sleep_time := fsub target_elapsed actual_elapsed in
          if gt_zero sleep_time then [sleep_time] else [])
       (seq 0 (Z.to_nat (max_requests self)))) /\
  (forall start_time i acc s' e,
      escapes self (http w (gets s')) = Some e ->
      sleeps (events (attempt self start_time i acc w s')) = []).
Proof.
  intros HR. assert (HR' : requests_per_second self <> 0) by lia. split; [|split].
  - intros start_time i acc s' HE HO.
    rewrite (attempt_completes self start_time i acc w s' HR' HE HO).
    unfold events. cbn [snd]. split; [reflexivity|]. apply sleeps_attempt.
  - intros HC HO. apply (sleeps_run self w s HR' HC HO).
  - intros start_time i acc s' e HE. rewrite attempt_run.
    apply escapes_some in HE. rewrite HE. unfold events. cbn [snd].
    apply sleeps_request.
Qed.

Lemma pacing_sleeps_witness :
  length (sleeps (events (test_rate_limiting sample_tester world_up boot))) = 5%nat.
Proof.
  rewrite (proj1 (proj2 (pacing_sleeps sample_tester world_up boot ltac:(simpl; lia)))).
  - vm_compute. reflexivity.
  - intros k Hk. vm_compute. reflexivity.
  - intros k Hk. change (Z.to_nat (max_requests sample_tester)) with 5%nat in Hk.
    do 5 (destruct k as [|k]; [vm_compute; reflexivity|]). lia.
Defined.

(** ** Progress *)

Lemma range_split n i :
  (i < n)%nat ->
  map Z.of_nat (seq 0 n) =
    map Z.of_nat (seq 0 i) ++ Z.of_nat i :: map Z.of_nat (seq (S i) (n - S i)).
Proof.
  intros Hi. replace n with (i + S (n - S i))%nat at 1 by lia.
  rewrite seq_app, map_app. reflexivity.
Qed.

(** The effects of a run contain those of every attempt it reaches. *)
Lemma reached_attempt_events self w s i :
  (i < Z.to_nat (max_requests self))%nat ->
  no_crash self w (gets s) i ->
  no_overflow self 0 i ->
  i = 0%nat \/ requests_per_second self <> 0 ->
  exists acc before rest,
    events (test_rate_limiting self w s) =
      before
        ++ events (attempt self (wall_clock w (ticks s)) (Z.of_nat i) acc w
                     {| gets := gets s + i; ticks := S (ticks s) + i |})
        ++ rest.
Proof.
  intros Hi HC HO HR. unfold test_rate_limiting.
  rewrite (bind_ok (logging INFO _) _ w s tt s [Log INFO _] eq_refl).
  unfold events at 1. cbn [snd].
  rewrite (bind_ok time_time _ w s (wall_clock w (ticks s)) (ticked s) [] eq_refl).
  unfold events at 1. cbn [snd app].
  match goal with
  | |- context [bind (for_each ?l (attempt self ?st) ?v) ?f w ?s0] =>
      destruct (bind_prefix (for_each l (attempt self st) v) f w s0) as [rest ->]
  end.
  unfold range. rewrite (range_split _ i Hi), for_each_app.
  assert (Hfirst : exists acc,
    for_each (map Z.of_nat (seq 0 i)) (attempt self (wall_clock w (ticks s))) [] w (ticked s)
    = (Ok acc, {| gets := gets s + i; ticks := S (ticks s) + i |},
       flat_map (fun k => attempt_events self (wall_clock w (ticks s)) (Z.of_nat (0 + k))
                            (http w (gets s + k)%nat)
                            (wall_clock w (S (ticks s) + k)%nat))
                (seq 0 i))).
  { destruct HR as [->|HR].
    - exists []. cbn. unfold ret, ticked. rewrite !Nat.add_0_r. reflexivity.
    - eexists. rewrite (loop_run self _ w HR i 0 [] (ticked s) HC HO). reflexivity. }
  destruct Hfirst as [acc Hfirst].
  rewrite (bind_ok _ _ _ _ _ _ _ Hfirst). unfold events at 1. cbn [snd for_each].
  match goal with
  | |- context [bind ?m ?f w ?s0] =>
      destruct (bind_prefix m f w s0) as [rest' ->]
  end.
  exists acc. eexists (_ :: _). exists (rest' ++ rest).
  rewrite <- !app_assoc, <- app_comm_cons. reflexivity.
Qed.

Lemma succeeds_returned self w n :
  succeeds self w n = true -> exists r, returned self (http w n) = Ok (Some r).
Proof.
  unfold succeeds. destruct (returned self (http w n)) as [[r|]|e]; try discriminate.
  eauto.
Qed.

Lemma fails_returned self w n :
  fails self w n = true -> returned self (http w n) = Ok None.
Proof.
  unfold fails. destruct (returned self (http w n)) as [[r|]|e]; try discriminate.
  reflexivity.
Qed.

Lemma progress_in_attempt self start_time i acc w s :
  i mod 10 = 0 ->
  succeeds self w (gets s) = true ->
  In (Log INFO ("Sent " +:+ str_int (i + 1) +:+ " requests"))
     (events (attempt self start_time i acc w s)).
Proof.
  intros Hm Hs. apply succeeds_returned in Hs. destruct Hs as [r Hr].
  apply Z.eqb_eq in Hm.
  rewrite attempt_run, Hr. unfold attempt_events, branch_events. rewrite Hr, Hm.
  destruct (requests_per_second self =? 0); [|destruct (is_infinite _)];
    unfold events; cbn [snd]; rewrite !in_app_iff;
    first [right; left; left; reflexivity | right; left; reflexivity].
Qed.

(** C6, as stated, fails: attempt 0 is a multiple of 10, and when its
    request times out no progress line is logged for it. *)
Lemma progress_missing_on_failure :
  ~ (0 <= 0 < max_requests sample_tester ->
     0 mod 10 = 0 ->
     In (Log INFO ("Sent " +:+ str_int (0 + 1) +:+ " requests"))
        (events (test_rate_limiting sample_tester world_down boot))).
Proof.
  intros H. specialize (H ltac:(simpl; lia) eq_refl).
  vm_compute in H.
  repeat (destruct H as [H|H]; [discriminate H|]). exact H.
Qed.

(** C6, amended: whatever the rate, an attempt whose index [i] is a
    multiple of 10 logs the progress line "Sent i+1 requests" when its
    request succeeds, and so does every run that reaches it; an attempt
    whose request fails logs nothing at the INFO level, only the warning
    after the error of [send_request]. *)
Theorem progress_logged self w s i :
  0 <= i < max_requests self ->
  i mod 10 = 0 ->
  (forall start_time acc s',
      succeeds self w (gets s') = true ->
      In (Log INFO ("Sent " +:+ str_int (i + 1) +:+ " requests"))
         (events (attempt self start_time i acc w s'))) /\
  (forall start_time acc s',
      fails self w (gets s') = true ->
      In (Log WARNING "Request failed, skipping analysis.")
         (events (attempt self start_time i acc w s')) /\
      forall msg, ~ In (Log INFO msg) (events (attempt self start_time i acc w s'))) /\
  (no_crash self w (gets s) (Z.to_nat i) ->
   no_overflow self 0 (Z.to_nat i) ->
   i = 0 \/ requests_per_second self <> 0 ->
   succeeds self w (gets s + Z.to_nat i) = true ->
   In (Log INFO ("Sent " +:+ str_int (i + 1) +:+ " requests"))
      (events (test_rate_limiting self w s))).
Proof.
  intros Hi Hm. split; [|split].
  - intros start_time acc s' Hs. apply progress_in_attempt; assumption.
  - intros start_time acc s' Hs. apply fails_returned in Hs.
    rewrite attempt_run, Hs.
    assert (HA : forall msg,
               ~ In (Log INFO msg)
                   (request_events self (http w (gets s'))
                      ++ branch_events self i (http w (gets s')))).
    { intros msg Hin. unfold request_events, branch_events in Hin. rewrite Hs in Hin.
      cbn [In app] in Hin. destruct (checked (timeout self) (http w (gets s'))) as [r|e];
        [|destruct (is_RequestException e)]; cbn [In app] in Hin;
        intuition discriminate. }
    assert (HW : In (Log WARNING "Request failed, skipping analysis.")
                   (request_events self (http w (gets s'))
                      ++ branch_events self i (http w (gets s')))).
    { apply in_app_iff. right. unfold branch_events. rewrite Hs. left. reflexivity. }
    destruct (requests_per_second self =? 0); [|destruct (is_infinite _)];
      unfold events; cbn [snd]; try (split; [exact HW|exact HA]).
    unfold attempt_events, pause_events. rewrite app_assoc. split.
    + apply in_app_iff. left. exact HW.
    + intros msg Hin. apply in_app_iff in Hin. destruct Hin as [Hin|Hin];
        [exact (HA msg Hin)|].
      destruct (gt_zero _); [|contradiction]. destruct Hin as [Hin|[]]. discriminate Hin.
  - intros HC HO HR Hs.
    destruct (reached_attempt_events self w s (Z.to_nat i)) as (acc & before & rest & ->);
      [lia|exact HC|exact HO|destruct HR as [->|HR]; [left; reflexivity|right; exact HR]|].
    rewrite !in_app_iff. right. left. rewrite Z2Nat.id by lia.
    apply progress_in_attempt; [exact Hm|exact Hs].
Qed.

Lemma progress_logged_witness :
  In (Log INFO "Sent 1 requests")
     (events (test_rate_limiting sample_tester world_up boot)).
Proof.
  apply (proj2 (proj2 (progress_logged sample_tester world_up boot 0
                         ltac:(simpl; lia) eq_refl))).
  - intros k Hk. simpl in Hk. lia.
  - intros k Hk. simpl in Hk. lia.
  - left. reflexivity.
  - vm_compute. reflexivity.
Defined.

(** ** A rate that is not positive *)

(** C4, as stated, fails: with [requests_per_second = -1] nothing is
    rejected; both requests are sent and the exit status is 0. *)
Lemma negative_rate_not_rejected :
  Args.requests_per_second (args_with (-1) 2) <= 0 /\
  result (main (args_with (-1) 2) world_up boot) = Ok 0 /\
  requests_sent (events (main (args_with (-1) 2) world_up boot)) = 2%nat.
Proof. repeat split; vm_compute; congruence. Qed.

Lemma requests_sent_reporter t : Forall reporter_event t -> requests_sent t = 0%nat.
Proof.
  induction 1 as [|e t He _ IH]; [reflexivity|].
  change (e :: t) with ([e] ++ t). rewrite requests_sent_app, IH.
  destruct He; reflexivity.
Qed.

(** The tester prints nothing while it sends its requests. *)
Lemma test_rate_limiting_silent self w s line :
  ~ In (Print line) (events (test_rate_limiting self w s)).
Proof.
  intros Hin. destruct (safe_test_rate_limiting self w s) as [HF _].
  rewrite List.Forall_forall in HF. specialize (HF _ Hin). inversion HF.
Qed.

Lemma verbose_events_level args e : In e (verbose_events args) -> e = SetLevel DEBUG.
Proof.
  unfold verbose_events. destruct (Args.verbose args); [|contradiction].
  intros [<-|[]]. reflexivity.
Qed.

(** C4, amended: [main] does not validate [requests_per_second]: with a
    valid URL and at least one request to send, a rate that is not positive
    reaches the loop and a request is sent in every case.  When the first
    call of [session.get] lets no exception through, a rate of 0 lets that
    request go out and then fails in the pacing division: the error is
    reported as unexpected, the exit status is 1 and nothing is printed.
    When no call lets an exception through and no division overflows, a
    negative rate is not rejected at all: all [max_requests] requests are
    sent, the report is printed and the exit status is 0. *)
Theorem main_nonpositive_rate args w :
  startswith_any ["http://"; "https://"] (Args.url args) = true ->
  Args.requests_per_second args <= 0 ->
  1 <= Args.max_requests args ->
  (1 <= requests_sent (events (main args w boot)))%nat /\
  (Args.requests_per_second args = 0 ->
   escapes (tester_of args) (http w 0) = None ->
   result (main args w boot) = Ok 1 /\
   requests_sent (events (main args w boot)) = 1%nat /\
   In (Log ERROR "An unexpected error occurred: division by zero")
      (events (main args w boot)) /\
   forall line, ~ In (Print line) (events (main args w boot))) /\
  (Args.requests_per_second args < 0 ->
   no_crash (tester_of args) w 0 (Z.to_nat (Args.max_requests args)) ->
   no_overflow (tester_of args) 0 (Z.to_nat (Args.max_requests args)) ->
   result (main args w boot) = Ok 0 /\
   Z.of_nat (requests_sent (events (main args w boot))) = Args.max_requests args /\
   In (Print (nl +:+ "--- Summary ---")) (events (main args w boot))).
Proof.
  intros HU HR HM. split; [|split].
  - pose proof (test_rate_limiting_sends (tester_of args) w boot HM) as HS.
    rewrite (main_valid args w boot HU).
    destruct (test_rate_limiting (tester_of args) w boot) as [[[rs|e] s1] t1];
      unfold events in *; cbn [snd] in *; rewrite !requests_sent_app; lia.
  - intros HR' HE. pose proof (test_rate_limiting_silent (tester_of args) w boot) as HP.
    rewrite (main_valid args w boot HU).
    rewrite (test_rate_limiting_zero (tester_of args) w boot HR' HM HE) in *.
    unfold result, events in *. cbn [fst snd is_ValueError str_exn] in *.
    split; [reflexivity|]. split; [|split].
    + change (?x :: ?l) with ([x] ++ l).
      rewrite !requests_sent_app, requests_sent_verbose, requests_sent_request,
        requests_sent_branch. reflexivity.
    + rewrite !in_app_iff. right. right. left. reflexivity.
    + intros line Hin. rewrite in_app_iff in Hin. destruct Hin as [Hin|Hin].
      * apply verbose_events_level in Hin. discriminate Hin.
      * apply in_app_iff in Hin. destruct Hin as [Hin|[Hin|[]]];
          [exact (HP line Hin)|discriminate Hin].
  - intros HR' HC HO.
    assert (HN : requests_per_second (tester_of args) <> 0)
      by (unfold tester_of, __init__; cbn [requests_per_second]; lia).
    rewrite (main_valid args w boot HU).
    rewrite (test_rate_limiting_run (tester_of args) w boot HN HC HO).
    change (max_requests (tester_of args)) with (Args.max_requests args).
    set (report := report_results _ _ _ _).
    unfold result, events. cbn [fst snd]. change (report.2) with (events report).
    split; [reflexivity|]. split.
    + change (?x :: ?l ++ ?m) with ([x] ++ l ++ m).
      rewrite !requests_sent_app, requests_sent_verbose, requests_sent_flat_map,
        length_seq.
      subst report.
      rewrite (requests_sent_reporter _ (report_results_events _ _ _ _)).
      * unfold requests_sent. simpl. lia.
      * intros k. apply requests_sent_attempt.
    + rewrite !in_app_iff. right. right. subst report.
      rewrite report_results_run.
      * unfold events. cbn [snd]. right. apply in_app_iff. right. left. reflexivity.
      * destruct (Z.to_nat (Args.max_requests args)) eqn:E; [lia|]. discriminate.
Qed.

Lemma main_nonpositive_rate_witness :
  result (main (args_with 0 1) world_up boot) = Ok 1 /\
  requests_sent (events (main (args_with 0 1) world_up boot)) = 1%nat.
Proof.
  destruct (main_nonpositive_rate (args_with 0 1) world_up) as (_ & H & _).
  - vm_compute. reflexivity.
  - simpl. lia.
  - simpl. lia.
  - destruct (H eq_refl) as (H1 & H2 & _); [vm_compute; reflexivity|].
    split; [exact H1|exact H2].
Defined.

(** * Further properties *)

(** ** When a run raises *)

(** X1: [test_rate_limiting] raises exactly when one of its attempts does,
    and then it raises the exception of the first such attempt: the
    exception its call of [session.get] let through [send_request], or the
    [ZeroDivisionError] (rate 0) or [OverflowError] of its pacing
    division.  It is never a [RequestException], and the attempts up to
    that one are the requests sent.  Otherwise the run returns. *)
Theorem test_rate_limiting_raises_iff self w s :
  (forall e,
      result (test_rate_limiting self w s) = Raise e <->
      exists k,
        (k < Z.to_nat (max_requests self))%nat /\
        attempt_raises self (Z.of_nat k) (http w (gets s + k)) = Some e /\
        forall j, (j < k)%nat ->
                  attempt_raises self (Z.of_nat j) (http w (gets s + j)) = None) /\
  (forall e, result (test_rate_limiting self w s) = Raise e ->
             is_RequestException e = false /\
             exists k, stops self w (gets s) = Some (k, e) /\
                       requests_sent (events (test_rate_limiting self w s)) = S k) /\
  (stops self w (gets s) = None ->
   exists responses, result (test_rate_limiting self w s) = Ok responses).
Proof.
  assert (HA : forall e, result (test_rate_limiting self w s) = Raise e <->
                         exists k, stops self w (gets s) = Some (k, e)).
  { intros e. destruct (stops self w (gets s)) as [[k e']|] eqn:HS.
    - rewrite (proj1 (test_rate_limiting_stops self w s k e' HS)). split.
      + intros [= <-]. eauto.
      + intros [k' [= <- <-]]. reflexivity.
    - rewrite (test_rate_limiting_goes self w s HS). unfold result. cbn [fst].
      split; [discriminate|]. intros [k H]. discriminate H. }
  split; [|split].
  - intros e. rewrite HA. unfold stops. split.
    + intros [k H]. exists k. apply (first_raise_some self w _ (gets s) 0 k e), H.
    + intros [k H]. exists k. apply (first_raise_some self w _ (gets s) 0 k e), H.
  - intros e He. apply HA in He. destruct He as [k HS]. split.
    + apply (first_raise_some self w _ (gets s) 0 k e) in HS.
      destruct HS as (_ & HS & _). apply (attempt_raises_not_request _ _ _ _ HS).
    + exists k. split; [exact HS|]. apply (requests_sent_stop self w s k e HS).
  - intros HS. rewrite (test_rate_limiting_goes self w s HS). eexists. reflexivity.
Qed.

(** ** The exit status and the requests of [main] *)

(** X2: [main] never lets an exception out.  Its exit status is 0 when the
    URL has a valid scheme and no attempt of the run raises (an exception
    of [session.get] that is not a [RequestException], or one of the
    pacing division), and 1 otherwise; requests that fail never change
    it. *)
Theorem main_exit_status args w :
  result (main args w boot) =
    Ok (if startswith_any ["http://"; "https://"] (Args.url args)
        then match stops (tester_of args) w 0 with
             | None => 0
             | Some _ => 1
             end
        else 1).
Proof.
  destruct (startswith_any _ _) eqn:HU.
  - rewrite (main_valid args w boot HU).
    destruct (stops (tester_of args) w 0) as [[k e]|] eqn:HS.
    + pose proof (proj1 (test_rate_limiting_stops (tester_of args) w boot k e HS)) as Hr.
      destruct (test_rate_limiting (tester_of args) w boot) as [[[rs|e'] s1] t1];
        [discriminate Hr|reflexivity].
    + rewrite (test_rate_limiting_goes (tester_of args) w boot HS). reflexivity.
  - rewrite (main_invalid args w boot HU). reflexivity.
Qed.

Lemma main_events_valid args w :
  valid_url (Args.url args) = true ->
  exists tail,
    events (main args w boot) =
      verbose_events args ++ events (test_rate_limiting (tester_of args) w boot) ++ tail /\
    (Forall reporter_event tail \/ exists msg, tail = [Log ERROR msg]).
Proof.
  intros HU. rewrite (main_valid args w boot HU).
  destruct (test_rate_limiting (tester_of args) w boot) as [[[rs|e] s1] t1];
    unfold events at 1 2; cbn [snd]; eexists; (split; [reflexivity|]).
  - left. apply report_results_events.
  - right. eauto.
Qed.

(** X3: [main] sends no request for a URL without a valid scheme;
    otherwise it sends [max_requests] requests (none when that is not
    positive) when no attempt raises, and the requests up to the first
    attempt that raises when one does: one request with a rate of 0, or
    with a timeout that is not positive unless the request fails with a
    [RequestException] before the timeout is looked at. *)
Theorem main_requests_sent args w :
  requests_sent (events (main args w boot)) =
    (if startswith_any ["http://"; "https://"] (Args.url args)
     then match stops (tester_of args) w 0 with
          | None => Z.to_nat (Args.max_requests args)
          | Some (k, _) => S k
          end
     else 0%nat) /\
  (1 <= Args.max_requests args ->
   Args.requests_per_second args = 0 \/
   (Args.timeout args <= 0 /\ forall k msg, http w 0 <> Failed k msg) ->
   exists e, stops (tester_of args) w 0 = Some (0%nat, e)).
Proof.
  split.
  - destruct (startswith_any _ _) eqn:HU.
    + destruct (main_events_valid args w HU) as (tail & -> & Htail).
      rewrite !requests_sent_app, requests_sent_verbose, requests_sent_made.
      assert (HT : requests_sent tail = 0%nat).
      { destruct Htail as [H|[msg ->]]; [apply requests_sent_reporter, H|reflexivity]. }
      rewrite HT. unfold attempts_made. cbn [gets boot].
      destruct (stops (tester_of args) w 0) as [[k e]|]; [lia|].
      change (max_requests (tester_of args)) with (Args.max_requests args). lia.
    + rewrite (main_invalid args w boot HU). unfold events. cbn [snd].
      rewrite requests_sent_app, requests_sent_verbose. reflexivity.
  - intros HM HZ. unfold stops.
    change (max_requests (tester_of args)) with (Args.max_requests args).
    destruct (Z.to_nat (Args.max_requests args)) as [|n] eqn:EN; [lia|].
    cbn [first_raise]. unfold attempt_raises.
    change (requests_per_second (tester_of args)) with (Args.requests_per_second args).
    destruct (escapes (tester_of args) (http w 0)) as [e|] eqn:EE; [eauto|].
    destruct HZ as [->|[HT HF]]; [cbn; eauto|]. exfalso.
    unfold escapes, returned, checked, delivered in EE.
    change (timeout (tester_of args)) with (Args.timeout args) in EE.
    apply Z.leb_le in HT. rewrite HT in EE.
    destruct (http w 0) as [r|k msg|e]; cbn in EE;
      [discriminate EE|exact (HF k msg eq_refl)|discriminate EE].
Qed.

(** X4: with a valid URL and [max_requests <= 0], [main] sends nothing and
    prints nothing: it logs the start and the end of the test and the
    warning that there is nothing to report, and exits with status 0, also
    when the rate is 0. *)
Theorem main_nothing_to_send args w :
  startswith_any ["http://"; "https://"] (Args.url args) = true ->
  Args.max_requests args <= 0 ->
  main args w boot =
    (Ok 0, ticked boot,
     verbose_events args ++
       [Log INFO ("Starting rate limiting test against " +:+ Args.url args);
        Log INFO "Rate limiting test completed.";
        Log WARNING "No responses to report."]).
Proof.
  intros HU HM. rewrite (main_valid args w boot HU).
  rewrite (test_rate_limiting_none (tester_of args) w boot HM). reflexivity.
Qed.

Lemma main_nothing_to_send_witness :
  main (args_with 0 0) world_down boot =
    (Ok 0, ticked boot,
     [Log INFO "Starting rate limiting test against http://t/";
      Log INFO "Rate limiting test completed.";
      Log WARNING "No responses to report."]).
Proof.
  apply (main_nothing_to_send (args_with 0 0) world_down).
  - vm_compute. reflexivity.
  - simpl. lia.
Defined.

(** ** The entries of the result *)

Lemma entry_analysis self o :
  escapes self o = None ->
  entry self o =
    match o with
    | Completed r => analyze_response self (Some r)
    | _ => None
    end.
Proof.
  unfold escapes, returned, entry, checked, delivered.
  destruct o as [r|k msg|e]; [| reflexivity |].
  - destruct (timeout self <=? 0); [discriminate|].
    destruct (ok r) eqn:E.
    + rewrite (raise_for_status_ok _ E). reflexivity.
    + destruct (raise_for_status_raise _ E) as [msg ->]. intros _.
      unfold analyze_response. simpl. rewrite E. reflexivity.
  - destruct (timeout self <=? 0); [discriminate|].
    destruct (is_RequestException e); [reflexivity|discriminate].
Qed.

Lemma analyze_response_inv self response info :
  analyze_response self response = Some info ->
  exists r, response = Some r /\ ok r = true /\ Info.status_code info = status_code r.
Proof.
  unfold analyze_response. destruct response as [r|]; simpl; [|discriminate].
  destruct (ok r) eqn:E; simpl; [|discriminate].
  intros [= <-]. exists r. repeat split. exact E.
Qed.

Lemma entry_absent self w n : is_absent (entry self (http w n)) = negb (succeeds self w n).
Proof.
  unfold entry, succeeds, returned.
  destruct (checked (timeout self) (http w n)) as [r|e] eqn:EC.
  - apply checked_ok in EC. destruct EC as [_ Hok].
    unfold analyze_response. simpl. rewrite Hok. reflexivity.
  - destruct (is_RequestException e); reflexivity.
Qed.

Lemma entry_not_blocked self o : is_blocked (entry self o) = false.
Proof.
  unfold entry. destruct (checked (timeout self) o) as [r|e]; [|reflexivity].
  destruct (analyze_response self (Some r)) as [info|] eqn:E; [|reflexivity].
  destruct (analyze_response_inv _ _ _ E) as (r' & [= <-] & Hok & Hs).
  apply ok_true_iff in Hok. unfold is_blocked. rewrite Hs.
  destruct (status_code r =? 429) eqn:E1; [apply Z.eqb_eq in E1; lia|].
  destruct (status_code r =? 503) eqn:E2; [apply Z.eqb_eq in E2; lia|].
  reflexivity.
Qed.

(** When [send_request] lets nothing through, it returns [None] exactly
    when it does not return a response. *)
Lemma fails_not_succeeds self w n :
  escapes self (http w n) = None -> fails self w n = negb (succeeds self w n).
Proof.
  unfold escapes, fails, succeeds.
  destruct (returned self (http w n)) as [[r|]|e]; [reflexivity|reflexivity|discriminate].
Qed.

(** X5: a record that [analyze_response] returns comes from a response
    whose status is outside 400..599 and has that status; so no record it
    returns is counted as blocked (429 or 503) by the report. *)
Theorem analyze_response_never_blocked self response info :
  analyze_response self response = Some info ->
  (exists r, response = Some r /\ Info.status_code info = status_code r) /\
  ~ (400 <= Info.status_code info < 600) /\
  is_blocked (Some info) = false.
Proof.
  intros H. destruct (analyze_response_inv _ _ _ H) as (r & -> & Hok & Hs).
  apply ok_true_iff in Hok. split; [eauto|]. split; [lia|].
  unfold is_blocked. rewrite Hs.
  destruct (status_code r =? 429) eqn:E1; [apply Z.eqb_eq in E1; lia|].
  destruct (status_code r =? 503) eqn:E2; [apply Z.eqb_eq in E2; lia|].
  reflexivity.
Qed.

Lemma analyze_response_never_blocked_witness :
  exists info,
    analyze_response sample_tester (Some served_200) = Some info /\
    is_blocked (Some info) = false.
Proof.
  eexists. split; [vm_compute; reflexivity|].
  apply (analyze_response_never_blocked sample_tester (Some served_200)).
  vm_compute. reflexivity.
Defined.

(** X6: when no attempt of the run raises, the result lists the attempts
    in request order: entry [k] is the analysis of the response of the
    [k]-th exchange, and it is [None] exactly when that exchange raised a
    [RequestException] or completed with a status in 400..599. *)
Theorem test_rate_limiting_entries self w s k :
  stops self w (gets s) = None ->
  (k < Z.to_nat (max_requests self))%nat ->
  exists responses,
    result (test_rate_limiting self w s) = Ok responses /\
    length responses = Z.to_nat (max_requests self) /\
    nth_error responses k =
      Some (match http w (gets s + k) with
            | Completed r => analyze_response self (Some r)
            | _ => None
            end) /\
    (nth_error responses k = Some None <-> succeeds self w (gets s + k) = false).
Proof.
  intros HS Hk. rewrite (test_rate_limiting_goes self w s HS).
  destruct (first_raise_none _ _ _ _ _ HS) as (_ & HC & _).
  unfold result. cbn [fst]. eexists. split; [reflexivity|].
  split; [rewrite length_map, length_seq; reflexivity|].
  assert (HN : nth_error
                 (map (fun k => entry self (http w (gets s + k)))
                    (seq 0 (Z.to_nat (max_requests self)))) k =
               Some (entry self (http w (gets s + k)))).
  { rewrite nth_error_map, nth_error_seq.
    apply Nat.ltb_lt in Hk. rewrite Hk. reflexivity. }
  rewrite HN. split; [rewrite (entry_analysis _ _ (HC k Hk)); reflexivity|].
  pose proof (entry_absent self w (gets s + k)) as HA.
  destruct (entry self (http w (gets s + k))); destruct (succeeds self w (gets s + k));
    simpl in HA; split; congruence.
Qed.

Lemma test_rate_limiting_entries_witness :
  exists responses,
    result (test_rate_limiting sample_tester world_down boot) = Ok responses /\
    nth_error responses 3 = Some None.
Proof.
  destruct (test_rate_limiting_entries sample_tester world_down boot 3)
    as (responses & H & _ & HN & _).
  - vm_compute. reflexivity.
  - vm_compute. lia.
  - exists responses. split; [exact H|exact HN].
Defined.

Lemma count_blocked_entries self (f : nat -> Outcome) l :
  count_blocked (map (fun k => entry self (f k)) l) = 0%nat.
Proof.
  unfold count_blocked. induction l as [|k l IH]; [reflexivity|].
  cbn [map List.filter]. rewrite entry_not_blocked. exact IH.
Qed.

Lemma count_absent_entries self w g l :
  count_absent (map (fun k => entry self (http w (g + k))) l) =
    length (List.filter (fun k => negb (succeeds self w (g + k))) l).
Proof.
  unfold count_absent. induction l as [|k l IH]; [reflexivity|].
  cbn [map List.filter]. rewrite entry_absent.
  destruct (succeeds self w (g + k)); cbn [negb length]; rewrite IH; reflexivity.
Qed.

Lemma failures_no_crash self w g n :
  no_crash self w g n ->
  failures self w g n = length (List.filter (fun k => negb (succeeds self w (g + k))) (seq 0 n)).
Proof.
  intros HC. unfold failures. f_equal. apply List.filter_ext_in.
  intros k Hk. apply in_seq in Hk. apply fails_not_succeeds, HC. lia.
Qed.

(** Whatever the rate, a list that [test_rate_limiting] returns has no
    blocked record. *)
Lemma test_rate_limiting_not_blocked self w s rs :
  result (test_rate_limiting self w s) = Ok rs -> count_blocked rs = 0%nat.
Proof.
  destruct (stops self w (gets s)) as [[k e]|] eqn:HS.
  - rewrite (proj1 (test_rate_limiting_stops self w s k e HS)). discriminate.
  - rewrite (test_rate_limiting_goes self w s HS). intros [= <-].
    apply count_blocked_entries.
Qed.

Lemma tester_never_prints self t line :
  Forall (tester_event self) t -> ~ In (Print line) t.
Proof.
  intros HF Hin. rewrite List.Forall_forall in HF. specialize (HF _ Hin). inversion HF.
Qed.

Lemma verbose_never_prints args line : ~ In (Print line) (verbose_events args).
Proof. intros Hin. apply verbose_events_level in Hin. discriminate Hin. Qed.

(** X7: [main] never prints the "Possible Rate Limiting Detected." verdict,
    whatever the arguments and whatever the server answers (a 429 or 503
    is turned into a failed request before it is analysed); whenever it
    prints anything, it prints the "No Rate Limiting Appears to be in
    Effect." verdict. *)
Theorem main_never_detects args w :
  ~ In (Print detected_line) (events (main args w boot)) /\
  (forall line, In (Print line) (events (main args w boot)) ->
                In (Print not_detected_line) (events (main args w boot))).
Proof.
  destruct (valid_url (Args.url args)) eqn:HU.
  - rewrite (main_valid args w boot HU).
    destruct (safe_test_rate_limiting (tester_of args) w boot) as [HF _].
    pose proof (test_rate_limiting_not_blocked (tester_of args) w boot) as HB.
    destruct (test_rate_limiting (tester_of args) w boot) as [[[rs|e] s1] t1];
      unfold events, result in *; cbn [fst snd] in *.
    + specialize (HB rs eq_refl). destruct rs as [|r rs].
      * split; [intros Hin|intros line Hin]; rewrite !in_app_iff in Hin;
          destruct Hin as [Hin|[Hin|Hin]];
          try (apply verbose_never_prints in Hin; contradiction);
          try (apply (tester_never_prints _ _ _ HF) in Hin; contradiction);
          destruct Hin as [Hin|[]]; discriminate Hin.
      * rewrite report_results_run by discriminate. cbn [snd]. rewrite HB.
        cbn [Nat.ltb Nat.leb]. split.
        -- intros Hin. rewrite !in_app_iff in Hin. destruct Hin as [Hin|[Hin|Hin]].
           ++ apply verbose_never_prints in Hin. contradiction.
           ++ apply (tester_never_prints _ _ _ HF) in Hin. contradiction.
           ++ destruct Hin as [Hin|Hin]; [lines_differ Hin|].
              apply in_app_iff in Hin. destruct Hin as [Hin|Hin].
              ** apply (proj1 (listing_no_verdict _)) in Hin. contradiction.
              ** cbn [In] in Hin.
                 repeat (destruct Hin as [Hin|Hin]; [lines_differ Hin|]).
                 contradiction.
        -- intros line _. rewrite !in_app_iff. right. right. right.
           apply in_app_iff. right. cbn [In]. do 4 right. left. reflexivity.
    + split; [intros Hin|intros line Hin]; rewrite !in_app_iff in Hin;
        destruct Hin as [Hin|[Hin|Hin]];
        try (apply verbose_never_prints in Hin; contradiction);
        try (apply (tester_never_prints _ _ _ HF) in Hin; contradiction);
        destruct Hin as [Hin|[]]; discriminate Hin.
  - rewrite (main_invalid args w boot HU). unfold events. cbn [snd].
    split; [intros Hin|intros line Hin]; apply in_app_iff in Hin;
      destruct Hin as [Hin|Hin];
      try (apply verbose_never_prints in Hin; contradiction);
      destruct Hin as [Hin|[]]; discriminate Hin.
Qed.

(** X8: with a valid URL and at least one request, when no attempt of the
    run raises, the summary [main] prints gives [max_requests] as the
    total, 0 as the blocked count and, as the failed count, the number of
    exchanges that raised a [RequestException] or completed with a status
    in 400..599. *)
Theorem main_reports_failures args w :
  startswith_any ["http://"; "https://"] (Args.url args) = true ->
  stops (tester_of args) w 0 = None ->
  1 <= Args.max_requests args ->
  In (Print ("Total Requests: " +:+ str_int (Args.max_requests args)))
     (events (main args w boot)) /\
  In (Print "Blocked Requests (429/503): 0") (events (main args w boot)) /\
  In (Print ("Failed Requests: "
               +:+ str_int (Z.of_nat (failures (tester_of args) w 0
                                        (Z.to_nat (Args.max_requests args))))))
     (events (main args w boot)).
Proof.
  intros HU HS HM. rewrite (main_valid args w boot HU).
  rewrite (test_rate_limiting_goes (tester_of args) w boot HS).
  destruct (first_raise_none _ _ _ _ _ HS) as (_ & HC & _).
  change (max_requests (tester_of args)) with (Args.max_requests args) in *.
  rewrite report_results_run.
  2:{ destruct (Z.to_nat (Args.max_requests args)) eqn:E; [lia|]. discriminate. }
  unfold events. cbn [snd gets boot].
  rewrite count_blocked_entries, (count_absent_entries _ w 0), length_map, length_seq.
  rewrite <- (failures_no_crash _ _ _ _ HC).
  rewrite Z2Nat.id by lia.
  repeat split; rewrite !in_app_iff; right; right; right;
    apply in_app_iff; right; cbn [In]; auto.
Qed.

Lemma main_reports_failures_witness :
  In (Print "Failed Requests: 2") (events (main (args_with 5 2) world_down boot)).
Proof.
  apply (main_reports_failures (args_with 5 2) world_down).
  - vm_compute. reflexivity.
  - vm_compute. reflexivity.
  - simpl. lia.
Defined.

(** ** The log of a run *)

Lemma logged_at_app l t1 t2 :
  logged_at l (t1 ++ t2) = (logged_at l t1 + logged_at l t2)%nat.
Proof. unfold logged_at. rewrite List.filter_app, length_app. reflexivity. Qed.

Lemma logged_at_flat_map l (f : nat -> list Event) (p : nat -> bool) xs :
  (forall k, logged_at l (f k) = if p k then 1%nat else 0%nat) ->
  logged_at l (flat_map f xs) = length (List.filter p xs).
Proof.
  intros Hf. induction xs as [|k xs IH]; [reflexivity|].
  cbn [flat_map List.filter]. rewrite logged_at_app, Hf, IH.
  destruct (p k); reflexivity.
Qed.

Lemma logged_at_pause l self start_time now i :
  logged_at l (pause_events self start_time now i) = 0%nat.
Proof. unfold pause_events. destruct (gt_zero _); destruct l; reflexivity. Qed.

(** The request and the branch of an attempt log one error and one
    warning when [send_request] returns [None], and none otherwise. *)
Lemma logged_at_stop self i w n :
  logged_at WARNING (request_events self (http w n) ++ branch_events self i (http w n)) =
    (if fails self w n then 1%nat else 0%nat) /\
  logged_at ERROR (request_events self (http w n) ++ branch_events self i (http w n)) =
    (if fails self w n then 1%nat else 0%nat).
Proof.
  unfold request_events, branch_events, fails, returned.
  destruct (checked (timeout self) (http w n)) as [r|e].
  - destruct (i mod 10 =? 0); split; reflexivity.
  - destruct (is_RequestException e); split; reflexivity.
Qed.

Lemma logged_at_attempt self start_time i w n now :
  logged_at WARNING (attempt_events self start_time i (http w n) now) =
    (if fails self w n then 1%nat else 0%nat) /\
  logged_at ERROR (attempt_events self start_time i (http w n) now) =
    (if fails self w n then 1%nat else 0%nat).
Proof.
  unfold attempt_events.
  rewrite !app_assoc, !logged_at_app, !logged_at_pause, !Nat.add_0_r, <- !logged_at_app.
  apply logged_at_stop.
Qed.

Lemma filter_seq_S (p : nat -> bool) k :
  length (List.filter p (seq 0 (S k))) =
    (length (List.filter p (seq 0 k)) + if p k then 1 else 0)%nat.
Proof.
  rewrite seq_S, List.filter_app, length_app. cbn [List.filter Nat.add].
  destruct (p k); reflexivity.
Qed.

(** X9: a run logs exactly one error and one warning for every request it
    made for which [send_request] returned [None], and none for the
    others; when no attempt raises, its result has exactly as many [None]
    entries. *)
Theorem test_rate_limiting_failures self w s :
  let n := failures self w (gets s) (attempts_made self w (gets s)) in
  logged_at WARNING (events (test_rate_limiting self w s)) = n /\
  logged_at ERROR (events (test_rate_limiting self w s)) = n /\
  (stops self w (gets s) = None ->
   exists responses,
     result (test_rate_limiting self w s) = Ok responses /\ count_absent responses = n).
Proof.
  intros n. subst n. unfold attempts_made.
  destruct (stops self w (gets s)) as [[k e]|] eqn:HS.
  - rewrite (proj2 (test_rate_limiting_stops self w s k e HS)).
    change (?x :: ?l ++ ?m) with ([x] ++ l ++ m).
    rewrite !logged_at_app.
    rewrite (logged_at_flat_map WARNING _ (fun j => fails self w (gets s + j))).
    2:{ intros j. apply logged_at_attempt. }
    rewrite (logged_at_flat_map ERROR _ (fun j => fails self w (gets s + j))).
    2:{ intros j. apply logged_at_attempt. }
    destruct (logged_at_stop self (Z.of_nat k) w (gets s + k)) as [HW HE].
    rewrite <- !logged_at_app, HW, HE. unfold failures. rewrite filter_seq_S.
    split; [|split; [|discriminate]]; unfold logged_at; simpl; lia.
  - rewrite (test_rate_limiting_goes self w s HS).
    destruct (first_raise_none _ _ _ _ _ HS) as (_ & HC & _).
    unfold events, result. cbn [fst snd].
    change (?x :: ?l ++ ?m) with ([x] ++ l ++ m).
    rewrite !logged_at_app.
    rewrite (logged_at_flat_map WARNING _ (fun j => fails self w (gets s + j))).
    2:{ intros j. apply logged_at_attempt. }
    rewrite (logged_at_flat_map ERROR _ (fun j => fails self w (gets s + j))).
    2:{ intros j. apply logged_at_attempt. }
    unfold failures. repeat split; try (unfold logged_at; simpl; lia).
    intros _. eexists. split; [reflexivity|].
    rewrite count_absent_entries. symmetry. apply (failures_no_crash _ _ _ _ HC).
Qed.

(** ** Where the requests go *)

(** X10: every request [main] sends goes to the URL of the command line,
    with the timeout of the command line, and carries as User-Agent the
    [--user-agent] string when it is given and not empty, the default
    otherwise. *)
Theorem main_requests_target args w u d h :
  In (HttpGet u d h) (events (main args w boot)) ->
  u = Args.url args /\
  d = Args.timeout args /\
  cid_get "User-Agent" h =
    Some (match Args.user_agent args with
          | Some (String c r) => String c r
          | _ => "vuln-Rate-Limiting-Tester/1.0"
          end).
Proof.
  intros Hin. destruct (valid_url (Args.url args)) eqn:HU.
  - destruct (main_events_valid args w HU) as (tail & Hev & Htail).
    rewrite Hev in Hin. rewrite !in_app_iff in Hin. destruct Hin as [Hin|[Hin|Hin]].
    + apply verbose_events_level in Hin. discriminate Hin.
    + destruct (safe_test_rate_limiting (tester_of args) w boot) as [HF _].
      rewrite List.Forall_forall in HF. specialize (HF _ Hin).
      inversion HF as [Hu| | | |]. subst. repeat split.
      unfold cid_get, cid_set. cbn [_store]. rewrite lookup_insert_eq.
      destruct (Args.user_agent args) as [[|c r]|]; reflexivity.
    + destruct Htail as [HT|[msg ->]].
      * rewrite List.Forall_forall in HT. specialize (HT _ Hin). inversion HT.
      * destruct Hin as [Hin|[]]. discriminate Hin.
  - rewrite (main_invalid args w boot HU) in Hin. unfold events in Hin. cbn [snd] in Hin.
    apply in_app_iff in Hin. destruct Hin as [Hin|[Hin|[]]]; [|discriminate Hin].
    apply verbose_events_level in Hin. discriminate Hin.
Qed.

Lemma main_requests_target_witness :
  "http://t/" = Args.url (args_with 5 1) /\
  5 = Args.timeout (args_with 5 1) /\
  cid_get "User-Agent" (session_headers (session (tester_of (args_with 5 1)))) =
    Some "vuln-Rate-Limiting-Tester/1.0".
Proof.
  apply (main_requests_target (args_with 5 1) world_up "http://t/" 5
           (session_headers (session (tester_of (args_with 5 1))))).
  vm_compute. right. left. reflexivity.
Defined.

(** X11: [send_request] counts one request and logs nothing when it
    returns a response; when it returns [None] it logs exactly one error,
    "Request failed: " followed by the message of the exception: the one
    of the transport, or the one [raise_for_status] builds from the
    status, the reason and the URL of the response.  It logs nothing
    either when it lets an exception through. *)
Theorem send_request_effects self w s :
  final (send_request self w s) = sent s /\
  events (send_request self w s) =
    HttpGet (url self) (timeout self) (session_headers (session self))
      :: match http w (gets s) with
         | Completed r =>
             if timeout self <=? 0 then []
             else if (400 <=? status_code r) && (status_code r <? 600)
             then [Log ERROR
                     ("Request failed: " +:+ str_int (status_code r)
                        +:+ (if status_code r <? 500 then " Client Error: "
                             else " Server Error: ")
                        +:+ reason r +:+ " for url: " +:+ resp_url r)]
             else []
         | Failed _ msg => [Log ERROR ("Request failed: " +:+ msg)]
         | Crashed e =>
             if timeout self <=? 0 then []
             else if is_RequestException e
                  then [Log ERROR ("Request failed: " +:+ str_exn e)] else []
         end /\
  (forall r, result (send_request self w s) = Ok (Some r) ->
             events (send_request self w s) =
               [HttpGet (url self) (timeout self) (session_headers (session self))]) /\
  (result (send_request self w s) = Ok None ->
   exists msg,
     events (send_request self w s) =
       [HttpGet (url self) (timeout self) (session_headers (session self));
        Log ERROR ("Request failed: " +:+ msg)]).
Proof.
  rewrite send_request_run. unfold final, events, result. cbn [fst snd].
  split; [reflexivity|]. split; [|split].
  - unfold request_events, checked, delivered. f_equal.
    destruct (http w (gets s)) as [r|k msg|e]; [|reflexivity|].
    + destruct (timeout self <=? 0); [reflexivity|].
      unfold raise_for_status.
      destruct (400 <=? status_code r) eqn:E4; destruct (status_code r <? 500) eqn:E5;
        destruct (500 <=? status_code r) eqn:E6; destruct (status_code r <? 600) eqn:E7;
        cbn [andb str_exn is_RequestException]; try reflexivity; lia.
    + destruct (timeout self <=? 0); [reflexivity|].
      destruct (is_RequestException e); reflexivity.
  - intros r Hr. apply returned_some in Hr. unfold request_events. rewrite Hr. reflexivity.
  - unfold returned, request_events.
    destruct (checked (timeout self) (http w (gets s))) as [r|e]; [discriminate|].
    destruct (is_RequestException e); [eauto|discriminate].
Qed.

(** ** The report *)

Lemma length_listing l :
  length (flat_map listing l) =
    (2 * count_absent (map snd l) + 7 * (length l - count_absent (map snd l)))%nat.
Proof.
  induction l as [|[i [d|]] l IH]; [reflexivity| |].
  - cbn [flat_map]. rewrite length_app, IH. unfold count_absent.
    cbn [map snd List.filter is_absent length listing Info.items app].
    pose proof (List.filter_length_le is_absent (map snd l)) as HL.
    rewrite length_map in HL. lia.
  - cbn [flat_map]. rewrite length_app, IH. unfold count_absent.
    cbn [map snd List.filter is_absent length listing app].
    pose proof (List.filter_length_le is_absent (map snd l)) as HL.
    rewrite length_map in HL. lia.
Qed.

Lemma length_enumerate {A} (rs : list A) : length (enumerate rs) = length rs.
Proof. rewrite <- (enumerate_snd rs) at 2. rewrite length_map. reflexivity. Qed.

Lemma listing_prints l :
  Forall (fun e => exists line, e = Print line) (flat_map listing l).
Proof.
  apply List.Forall_forall. intros e He. apply in_flat_map in He.
  destruct He as ([i [d|]] & _ & He); unfold listing in He;
    cbn [fst snd Info.items map In] in He;
    repeat (destruct He as [<-|He]; [eauto|]); contradiction.
Qed.

(** X12: [report_results] always returns, sends no request, does not
    sleep and leaves the counters as they are.  On a list that is not
    empty it logs nothing and prints one header line, two lines for every
    failed request, seven for every analysed response and five summary
    lines. *)
Theorem report_results_effects self rs w s :
  result (report_results self rs w s) = Ok tt /\
  final (report_results self rs w s) = s /\
  requests_sent (events (report_results self rs w s)) = 0%nat /\
  sleeps (events (report_results self rs w s)) = [] /\
  (rs <> [] ->
   Forall (fun e => exists line, e = Print line) (events (report_results self rs w s)) /\
   length (events (report_results self rs w s)) =
     (6 + 2 * count_absent rs + 7 * (length rs - count_absent rs))%nat).
Proof.
  destruct (report_results_returns self rs w s) as [Hr Hf].
  pose proof (report_results_events self rs w s) as HE.
  split; [exact Hr|]. split; [exact Hf|].
  split; [apply requests_sent_reporter, HE|]. split.
  - induction HE as [|e t He _ IH]; [reflexivity|].
    unfold sleeps in *. cbn [flat_map]. rewrite IH. destruct He; reflexivity.
  - intros Hne. rewrite (report_results_run self rs w s Hne).
    unfold events. cbn [snd]. split.
    + constructor; [eauto|]. apply Forall_app. split; [apply listing_prints|].
      repeat (constructor; [eauto|]). constructor.
    + cbn [length]. rewrite length_app, length_listing, enumerate_snd, length_enumerate.
      cbn [length]. lia.
Qed.

(** ** Progress lines *)

Lemma logged_info_stop self w g k :
  logged_at INFO (request_events self (http w (g + k))
                    ++ branch_events self (Z.of_nat k) (http w (g + k))) =
    if succeeds self w (g + k) && (Z.of_nat k mod 10 =? 0)%Z then 1%nat else 0%nat.
Proof.
  unfold request_events, branch_events, succeeds, returned.
  destruct (checked (timeout self) (http w (g + k))) as [r|e].
  - destruct (Z.of_nat k mod 10 =? 0); reflexivity.
  - destruct (is_RequestException e); reflexivity.
Qed.

Lemma logged_info_attempt self start_time w g k now :
  logged_at INFO (attempt_events self start_time (Z.of_nat k) (http w (g + k)) now) =
    if succeeds self w (g + k) && (Z.of_nat k mod 10 =? 0)%Z then 1%nat else 0%nat.
Proof.
  unfold attempt_events.
  rewrite !app_assoc, !logged_at_app, logged_at_pause, Nat.add_0_r, <- logged_at_app.
  apply logged_info_stop.
Qed.

(** X16: the lines a run logs at the INFO level are its first line, one
    progress line for every attempt it made that succeeded and whose index
    is a multiple of 10, and its last line when no attempt raises; no
    other attempt adds one. *)
Theorem test_rate_limiting_progress_lines self w s :
  logged_at INFO (events (test_rate_limiting self w s)) =
    (1 + length (List.filter
                   (fun k => succeeds self w (gets s + k) && (Z.of_nat k mod 10 =? 0)%Z)
                   (seq 0 (attempts_made self w (gets s))))
     + match stops self w (gets s) with None => 1 | Some _ => 0 end)%nat.
Proof.
  unfold attempts_made. destruct (stops self w (gets s)) as [[k e]|] eqn:HS.
  - rewrite (proj2 (test_rate_limiting_stops self w s k e HS)).
    change (?x :: ?l ++ ?m) with ([x] ++ l ++ m).
    rewrite !logged_at_app.
    rewrite (logged_at_flat_map INFO _
               (fun k => succeeds self w (gets s + k) && (Z.of_nat k mod 10 =? 0))).
    2:{ intros j. apply logged_info_attempt. }
    rewrite <- logged_at_app, logged_info_stop, filter_seq_S.
    unfold logged_at at 1. simpl. lia.
  - rewrite (test_rate_limiting_goes self w s HS). unfold events. cbn [snd].
    change (?x :: ?l ++ ?m) with ([x] ++ l ++ m).
    rewrite !logged_at_app.
    rewrite (logged_at_flat_map INFO _
               (fun k => succeeds self w (gets s + k) && (Z.of_nat k mod 10 =? 0))).
    2:{ intros k. apply logged_info_attempt. }
    unfold logged_at at 1 2. simpl. lia.
Qed.

(** ** A negative rate *)

Lemma binary_round_aux_signed sx mx ex lx :
  signed sx (binary_round_aux prec emax sx mx ex lx).
Proof.
  unfold binary_round_aux.
  destruct (shr_fexp prec emax mx ex lx) as [mrs' e'].
  destruct (shr_fexp prec emax _ e' loc_Exact) as [mrs'' e''].
  destruct (shr_m mrs'') as [|m|m]; [reflexivity| |exact I].
  destruct (e'' <=? emax - prec); reflexivity.
Qed.

Lemma binary_round_signed sx mx ex : signed sx (binary_round prec emax sx mx ex).
Proof.
  unfold binary_round. destruct (shl_align _ _ _) as [mz ez].
  apply binary_round_aux_signed.
Qed.

Lemma signed_true_not_positive x : signed true x -> gt_zero x = false.
Proof. destruct x as [s|s| |s m e]; cbn; intros H; try rewrite H; reflexivity. Qed.

Lemma signed_false_not_negative x : signed false x -> not_negative x = true.
Proof. destruct x as [s|s| |s m e]; cbn; intros H; try rewrite H; reflexivity. Qed.

(** The quotient of a positive and a negative [int] has the sign bit set:
    it is negative, or [-0.0] when it underflows. *)
Lemma quotient_signed a b : 0 < a -> b < 0 -> signed true (quotient a b).
Proof.
  intros Ha Hb. destruct a as [|p|p]; try lia. destruct b as [|q|q]; try lia.
  unfold quotient, exact, SFdiv.
  destruct (SFdiv_core_binary prec emax (Z.pos p) 0 (Z.pos q) 0) as [[mz ez] lz].
  apply binary_round_aux_signed.
Qed.

(** A target that is not positive less an elapsed time that is not
    negative is not positive. *)
Lemma fsub_not_positive t e :
  signed true t -> not_negative e = true -> gt_zero (fsub t e) = false.
Proof.
  intros Ht He.
  destruct t as [s|s| |s m x]; cbn in Ht; try subst s;
    destruct e as [s'|s'| |s' m' x']; try destruct s'; cbn in He; try discriminate He;
    try reflexivity.
  apply signed_true_not_positive. unfold fsub, SFsub. apply binary_round_signed.
Qed.

Lemma digits2_pos_bounds m :
  2 ^ (Z.pos (digits2_pos m) - 1) <= Z.pos m < 2 ^ Z.pos (digits2_pos m).
Proof.
  induction m as [m IH|m IH|]; cbn [digits2_pos].
  - rewrite Pos2Z.inj_succ, Z.pow_succ_r by lia.
    replace (Z.succ (Z.pos (digits2_pos m)) - 1) with (Z.succ (Z.pos (digits2_pos m) - 1))
      by lia.
    rewrite Z.pow_succ_r by lia. lia.
  - rewrite Pos2Z.inj_succ, Z.pow_succ_r by lia.
    replace (Z.succ (Z.pos (digits2_pos m)) - 1) with (Z.succ (Z.pos (digits2_pos m) - 1))
      by lia.
    rewrite Z.pow_succ_r by lia. lia.
  - cbn. lia.
Qed.

Lemma iter_xO_double m d : 2 * Z.pos m <= Z.pos (Pos.iter xO m d).
Proof.
  induction d as [|d IH] using Pos.peano_ind.
  - cbn. lia.
  - rewrite Pos.iter_succ. lia.
Qed.

(** The mantissa and the exponent of a binary64 number. *)
Lemma bounded_inv m e :
  bounded prec emax m e = true ->
  -1074 <= e /\ Z.pos m < 2 ^ 53 /\ (-1074 < e -> 2 ^ 52 <= Z.pos m).
Proof.
  unfold bounded, canonical_mantissa, fexp, SpecFloat.emin, prec, emax.
  intros H. apply andb_prop in H. destruct H as [H _]. apply Z.eqb_eq in H.
  pose proof (digits2_pos_bounds m) as [HL HU].
  assert (Hd : Z.pos (digits2_pos m) <= 53) by lia.
  split; [lia|]. split.
  - eapply Z.lt_le_trans; [exact HU|]. apply Z.pow_le_mono_r; lia.
  - intros He. assert (Hd' : Z.pos (digits2_pos m) = 53) by lia.
    rewrite Hd' in HL. exact HL.
Qed.

(** Of two binary64 numbers, the mantissa of the one with the larger
    exponent, aligned to the smaller exponent, is not below the other. *)
Lemma aligned_le mx ex my ey :
  bounded prec emax mx ex = true -> bounded prec emax my ey = true ->
  ex < ey ->
  Z.pos (fst (shl_align mx ex ex)) <= Z.pos (fst (shl_align my ey ex)).
Proof.
  intros Hx Hy Hlt.
  destruct (bounded_inv _ _ Hx) as (Hex & Hmx & _).
  destruct (bounded_inv _ _ Hy) as (_ & _ & Hmy). specialize (Hmy ltac:(lia)).
  unfold shl_align. rewrite Z.sub_diag.
  destruct (ex - ey) as [|d|d] eqn:E; try lia. cbn [fst].
  pose proof (iter_xO_double my d) as HD.
  change (2 ^ 53) with (2 * 2 ^ 52) in Hmx. lia.
Qed.

Lemma shl_align_same m e : fst (shl_align m e e) = m.
Proof. unfold shl_align. rewrite Z.sub_diag. reflexivity. Qed.

Lemma compare_cont_le mx my :
  Pos.compare_cont Eq mx my <> Gt -> Z.pos mx <= Z.pos my.
Proof.
  intros H. change (Pos.compare_cont Eq mx my) with (Pos.compare mx my) in H.
  apply Pos.compare_le_iff in H. apply Pos2Z.pos_le_pos, H.
Qed.

Lemma binary_normalize_not_negative m e :
  0 <= m -> not_negative (binary_normalize prec emax m e false) = true.
Proof.
  intros Hm. apply signed_false_not_negative.
  destruct m as [|p|p]; [reflexivity|apply binary_round_signed|lia].
Qed.

(** The time elapsed between two readings of a clock that does not go
    back is not negative. *)
Lemma elapsed_not_negative x y :
  is_float x = true -> is_float y = true -> fle x y = true ->
  not_negative (fsub y x) = true.
Proof.
  unfold fle. intros Hx Hy Hle.
  destruct x as [sx|sx| |sx mx ex]; destruct y as [sy|sy| |sy my ey];
    try destruct sx; try destruct sy; try discriminate Hle; try reflexivity.
  - unfold fsub, SFsub. apply binary_normalize_not_negative.
    unfold SFleb, SFcompare in Hle. cbn [cond_Zopp]. cbn [is_float valid_binary] in Hx, Hy.
    destruct (Z.compare_spec ex ey) as [E|E|E].
    + subst ey. rewrite Z.min_id, !shl_align_same.
      assert (Z.pos my <= Z.pos mx).
      { apply compare_cont_le. intros HC.
        change (Pos.compare_cont Eq mx my) with (Pos.compare mx my) in Hle.
        rewrite Pos.compare_antisym in HC.
        destruct (Pos.compare mx my); cbn in *; discriminate. }
      lia.
    + discriminate Hle.
    + rewrite Z.min_l by lia. pose proof (aligned_le _ _ _ _ Hy Hx E). lia.
  - unfold fsub, SFsub. apply binary_normalize_not_negative. cbn [cond_Zopp]. lia.
  - unfold fsub, SFsub. apply binary_normalize_not_negative.
    unfold SFleb, SFcompare in Hle. cbn [cond_Zopp]. cbn [is_float valid_binary] in Hx, Hy.
    destruct (Z.compare_spec ex ey) as [E|E|E].
    + subst ey. rewrite Z.min_id, !shl_align_same.
      assert (Z.pos mx <= Z.pos my).
      { apply compare_cont_le. intros HC. rewrite HC in Hle. discriminate Hle. }
      lia.
    + rewrite Z.min_r by lia. pose proof (aligned_le _ _ _ _ Hx Hy E). lia.
    + discriminate Hle.
Qed.

Lemma sleeps_attempts self start_time (clock : nat -> float) (o : nat -> Outcome) m :
  (forall j, (j < m)%nat ->
             gt_zero (slack self start_time (clock j) (Z.of_nat j)) = false) ->
  sleeps (flat_map (fun j => attempt_events self start_time (Z.of_nat j) (o j) (clock j))
            (seq 0 m)) = [].
Proof.
  intros H. rewrite sleeps_flat_map.
  assert (HA : forall l, (forall j, In j l -> (j < m)%nat) ->
                 flat_map (fun j => sleeps (attempt_events self start_time (Z.of_nat j)
                                              (o j) (clock j))) l = []).
  { induction l as [|j l IH]; intros Hl; [reflexivity|].
    cbn [flat_map]. rewrite sleeps_attempt, (H j (Hl j (or_introl eq_refl))).
    apply IH. intros j' Hj'. apply Hl. right. exact Hj'. }
  apply HA. intros j Hj. apply in_seq in Hj. lia.
Qed.

(** X15: with a negative rate and a clock whose readings are binary64
    numbers and never show less than at the start of the run, the loop
    never sleeps: the requests go out back to back. *)
Theorem negative_rate_never_sleeps self w s :
  requests_per_second self < 0 ->
  (forall k, (k < Z.to_nat (max_requests self))%nat ->
             is_float (wall_clock w (ticks s)) = true /\
             is_float (wall_clock w (S (ticks s) + k)) = true /\
             fle (wall_clock w (ticks s)) (wall_clock w (S (ticks s) + k)) = true) ->
  sleeps (events (test_rate_limiting self w s)) = [].
Proof.
  intros HR Hclock.
  assert (HS : forall j, (j < Z.to_nat (max_requests self))%nat ->
                 gt_zero (slack self (wall_clock w (ticks s))
                            (wall_clock w (S (ticks s) + j)) (Z.of_nat j)) = false).
  { intros j Hj. destruct (Hclock j Hj) as (H0 & H1 & H2). unfold slack.
    apply fsub_not_positive; [apply quotient_signed; lia|].
    apply elapsed_not_negative; assumption. }
  destruct (stops self w (gets s)) as [[k e]|] eqn:HE.
  - rewrite (proj2 (test_rate_limiting_stops self w s k e HE)).
    apply (first_raise_some self w _ (gets s) 0 k e) in HE. destruct HE as (Hk & _).
    change (?x :: ?l ++ ?m) with ([x] ++ l ++ m).
    rewrite !sleeps_app, sleeps_request, sleeps_branch.
    rewrite (sleeps_attempts self _ (fun j => wall_clock w (S (ticks s) + j))
               (fun j => http w (gets s + j))).
    + reflexivity.
    + intros j Hj. apply HS. lia.
  - rewrite (test_rate_limiting_goes self w s HE). unfold events. cbn [snd].
    change (?x :: ?l ++ ?m) with ([x] ++ l ++ m).
    rewrite !sleeps_app.
    rewrite (sleeps_attempts self _ (fun j => wall_clock w (S (ticks s) + j))
               (fun j => http w (gets s + j))).
    + reflexivity.
    + exact HS.
Qed.

Lemma negative_rate_never_sleeps_witness :
  sleeps (events (test_rate_limiting (tester_of (args_with (-1) 2)) world_up boot)) = [].
Proof.
  apply (negative_rate_never_sleeps (tester_of (args_with (-1) 2)) world_up boot).
  - simpl. lia.
  - intros k Hk. change (Z.to_nat (max_requests (tester_of (args_with (-1) 2)))) with 2%nat in Hk.
    destruct k as [|[|k]]; [vm_compute; auto|vm_compute; auto|lia].
Defined.
